(** * ProviderBridgeService: permission-gated RPC mediation

    A shallow embedding of [background/services/provider-bridge/index.ts].

    The service is asynchronous.  Every invocation of the listener returned
    by [onMessageListener] is a task with a program counter; the points where
    a task can be suspended for longer than a microtask are the two calls of
    [showDappConnectWindow] (a browser window is being created) and the
    [await blockUntilUserAction] (a human decision is awaited).  Awaits on
    promises that are already resolved ([permissionCheck], the resumption
    after a resolver call) continue within the same microtask checkpoint and
    are modelled as part of the step that reaches them.  The service state is
    threaded explicitly through total step functions. *)

From stdpp Require Import gmap strings list fin_maps.
From Stdlib Require Import ZArith.

Set Warnings "-register-all".
Local Open Scope string_scope.
Local Open Scope list_scope.

(** ** Data *)

(** JSON-like payloads ([RPCRequest["params"]] and results are [unknown]). *)
Inductive Value :=
| VNull
| VStr (s : string)
| VNum (n : Z)
| VArr (l : list Value).

(** [PermissionRequest] of the provider-bridge redux slice. *)
Record PermissionRequest := mkPermissionRequest {
  url : string;
  favIconUrl : string;
  state : string
}.

Record RPCRequest := mkRPCRequest {
  method : string;
  params : Value
}.

Record PortRequestEvent := mkPortRequestEvent {
  id : string;
  request : RPCRequest
}.

(** Modelled from the spec: the declaration of [PortResponseEvent] lives in
    the shared package, which is not part of the sources at hand.  The
    outbound envelope is [{id, result}] or [{id, error: {code, message}}]. *)
Inductive ResponseBody :=
| Result (v : Value)
| RpcError (code : Z) (message : string).

Record PortResponseEvent := mkPortResponseEvent {
  resp_id : string;
  resp_body : ResponseBody
}.

(** A connected [browser.Runtime.Port] with a sender url
    ([Required<browser.Runtime.Port>]); [handle] identifies the connection. *)
Record Port := mkPort {
  handle : nat;
  sender_url : string;
  sender_tab_favIconUrl : option string
}.

(** Where an invocation of the message listener currently is. *)
Inductive Pc :=
| AwaitPermissionWindow   (* inside permissionRequest, window being created *)
| AwaitUserAction         (* await blockUntilUserAction *)
| AwaitSignWindow         (* window for /signTransaction being created *)
| Finished                (* port.postMessage(response) done *)
| Rejected.               (* the listener's promise was rejected *)

Record Task := mkTask {
  task_port : Port;
  task_event : PortRequestEvent;
  pc : Pc
}.

Definition is_error (b : ResponseBody) : bool :=
  match b with
  | Result _ => false
  | RpcError _ _ => true
  end.

Section ProviderBridgeService.

(** The database handle ([ProviderBridgeServiceDatabase]) and the internal
    provider ([routeSafeRPCRequest]; [None] is a rejected promise) are
    collaborators that the constructor receives. *)
Context {DB : Type}.
Variable routeSafeRPCRequest : string → Value → option Value.

(** The fields of the service, followed by the observable effects: events
    emitted, windows requested, calls into the internal provider, messages
    posted on ports, and the errors with which a decision handler rejects.

    The two tables are plain objects.  [allowedPages s !! u] is the
    permission record that [this.allowedPages[u]] evaluates to, if it
    evaluates to a record; [pendingPermissionsRequests s !! u] is the
    listener whose resolver [this.#pendingPermissionsRequests[u]] evaluates
    to, if it evaluates to a stored resolver.  At a name inherited from
    [Object.prototype] a lookup without an entry of its own evaluates to a
    builtin, which is neither; the guards of the decision handlers, which
    test for truthiness, see it all the same ([objectPrototypeNames] below).
    Resolvers are stored under the sender url of a port, which the browser
    reports and which is never such a name. *)
Record Service := mkService {
  db : DB;
  allowedPages : gmap string PermissionRequest;
  pendingPermissionsRequests : gmap string nat;
  tasks : list Task;
  emitted : list PermissionRequest;
  windows : list string;
  engineCalls : list (string * Value);
  posted : list (Port * PortResponseEvent);
  uncaught : list string
}.

(** [new this(db, internalEthereumProviderService)]: the field initialisers
    give empty tables. *)
Definition create (d : DB) : Service :=
  mkService d ∅ ∅ [] [] [] [] [] [].

Definition set_allowedPages (m : gmap string PermissionRequest) (s : Service) :=
  mkService (db s) m (pendingPermissionsRequests s) (tasks s)
            (emitted s) (windows s) (engineCalls s) (posted s) (uncaught s).

Definition set_pending (m : gmap string nat) (s : Service) :=
  mkService (db s) (allowedPages s) m (tasks s)
            (emitted s) (windows s) (engineCalls s) (posted s) (uncaught s).

Definition set_tasks (l : list Task) (s : Service) :=
  mkService (db s) (allowedPages s) (pendingPermissionsRequests s) l
            (emitted s) (windows s) (engineCalls s) (posted s) (uncaught s).

Definition emit (p : PermissionRequest) (s : Service) :=
  mkService (db s) (allowedPages s) (pendingPermissionsRequests s) (tasks s)
            (emitted s ++ [p]) (windows s) (engineCalls s) (posted s) (uncaught s).

(** The call of [showDappConnectWindow(page)]. *)
Definition showDappConnectWindow (page : string) (s : Service) :=
  mkService (db s) (allowedPages s) (pendingPermissionsRequests s) (tasks s)
            (emitted s) (windows s ++ [page]) (engineCalls s) (posted s) (uncaught s).

Definition logEngineCall (m : string) (p : Value) (s : Service) :=
  mkService (db s) (allowedPages s) (pendingPermissionsRequests s) (tasks s)
            (emitted s) (windows s) (engineCalls s ++ [(m, p)]) (posted s) (uncaught s).

Definition postMessage (port : Port) (r : PortResponseEvent) (s : Service) :=
  mkService (db s) (allowedPages s) (pendingPermissionsRequests s) (tasks s)
            (emitted s) (windows s) (engineCalls s) (posted s ++ [(port, r)]) (uncaught s).

(** A decision handler throws: the promise it returned is rejected. *)
Definition throw (err : string) (s : Service) :=
  mkService (db s) (allowedPages s) (pendingPermissionsRequests s) (tasks s)
            (emitted s) (windows s) (engineCalls s) (posted s) (uncaught s ++ [err]).

(** The properties every plain object inherits from [Object.prototype]. *)
Definition objectPrototypeNames : list string :=
  ["constructor"; "hasOwnProperty"; "isPrototypeOf"; "propertyIsEnumerable";
   "toLocaleString"; "toString"; "valueOf";
   "__defineGetter__"; "__defineSetter__"; "__lookupGetter__";
   "__lookupSetter__"; "__proto__"].

Definition inherited (k : string) : bool :=
  bool_decide (k ∈ objectPrototypeNames).

(** Calling the inherited value with the one argument "Time to move on"
    throws a TypeError for [__proto__] (an object, not a function) and for
    [__defineGetter__] and [__defineSetter__] (the accessor argument is
    missing); the other builtins return without effect. *)
Definition callThrows (k : string) : bool :=
  bool_decide (k ∈ ["__defineGetter__"; "__defineSetter__"; "__proto__"]).

Definition set_pc (t : nat) (c : Pc) (s : Service) : Service :=
  match tasks s !! t with
  | Some task =>
      set_tasks (<[t := mkTask (task_port task) (task_event task) c]> (tasks s)) s
  | None => s
  end.

(** [permissionCheck]: [this.allowedPages[url]?.state === "allow"]. *)
Definition permissionCheck (s : Service) (u : string) : bool :=
  match allowedPages s !! u with
  | Some p => bool_decide (state p = "allow")
  | None => false
  end.

(** [routeContentScriptRPCRequest]: the switch on the method name. *)
Definition internalMethod (m : string) : string :=
  if bool_decide (m = "eth_requestAccounts") then "eth_accounts" else m.

Definition routeContentScriptRPCRequest (m : string) (p : Value) (s : Service)
  : option Value * Service :=
  (routeSafeRPCRequest (internalMethod m) p, logEngineCall (internalMethod m) p s).

(** Lines 111-119 of the listener: forward, then post the response.  When
    the provider rejects, the listener rejects and nothing is posted. *)
Definition forward (port : Port) (event : PortRequestEvent) (s : Service)
  : Pc * Service :=
  match routeContentScriptRPCRequest (method (request event)) (params (request event)) s with
  | (Some v, s') => (Finished, postMessage port (mkPortResponseEvent (id event) (Result v)) s')
  | (None, s') => (Rejected, s')
  end.

(** Lines 104-119 of the listener: the response starts as
    [{ id: event.id, result: [] }]. *)
Definition respond (port : Port) (event : PortRequestEvent) (s : Service)
  : Pc * Service :=
  if permissionCheck s (sender_url port) then
    if bool_decide (method (request event) = "eth_sendTransaction") then
      (AwaitSignWindow, showDappConnectWindow "/signTransaction" s)
    else forward port event s
  else
    (Finished, postMessage port (mkPortResponseEvent (id event) (Result (VArr []))) s).

(** [permissionRequest] up to its await: emit, then ask for the window. *)
Definition permissionRequest (p : PermissionRequest) (s : Service) : Service :=
  showDappConnectWindow "/permission" (emit p s).

(** A message arrives on [port]: lines 75-99, then [respond] when the
    approval branch is not taken. *)
Definition onMessage (port : Port) (event : PortRequestEvent) (s : Service)
  : Service :=
  let u := sender_url port in
  let fav := default "" (sender_tab_favIconUrl port) in
  if bool_decide (method (request event) = "eth_requestAccounts")
     && negb (permissionCheck s u) then
    let s' := permissionRequest (mkPermissionRequest u fav "request") s in
    set_tasks (tasks s' ++ [mkTask port event AwaitPermissionWindow]) s'
  else
    let '(c, s') := respond port event s in
    set_tasks (tasks s' ++ [mkTask port event c]) s'.

(** The window requested by task [t] exists.  In [permissionRequest] the
    resolver is stored under the url and the listener blocks; after
    [/signTransaction] the request is forwarded. *)
Definition windowCreated (t : nat) (s : Service) : Service :=
  match tasks s !! t with
  | Some task =>
      match pc task with
      | AwaitPermissionWindow =>
          set_pc t AwaitUserAction
            (set_pending (<[sender_url (task_port task) := t]>
                            (pendingPermissionsRequests s)) s)
      | AwaitSignWindow =>
          let '(c, s') := forward (task_port task) (task_event task) s in
          set_pc t c s'
      | _ => s
      end
  | None => s
  end.

(** [browser.windows.create] rejected: the listener rejects. *)
Definition windowFailed (t : nat) (s : Service) : Service :=
  match tasks s !! t with
  | Some task =>
      match pc task with
      | AwaitPermissionWindow | AwaitSignWindow => set_pc t Rejected s
      | _ => s
      end
  | None => s
  end.

(** Calling a stored resolver: the task blocked on it continues at line 104. *)
Definition resolve (t : nat) (s : Service) : Service :=
  match tasks s !! t with
  | Some task =>
      match pc task with
      | AwaitUserAction =>
          let '(c, s') := respond (task_port task) (task_event task) s in
          set_pc t c s'
      | _ => s
      end
  | None => s
  end.

(** [permissionGrant] when the guard of line 138 is truthy only through an
    inherited property.  Line 139 stores the record; for [__proto__] the
    assignment makes the record the prototype of the table, and the record is
    what a lookup at [__proto__] then gives.  Line 140 calls the builtin, and
    line 141 finds nothing to delete. *)
Definition permissionGrant_inherited (permission : PermissionRequest)
    (s : Service) : Service :=
  let s' := set_allowedPages (<[url permission := permission]> (allowedPages s)) s in
  if callThrows (url permission) then throw "TypeError" s' else s'.

Definition permissionGrant (permission : PermissionRequest) (s : Service)
  : Service :=
  match pendingPermissionsRequests s !! url permission with
  | Some t =>
      resolve t
        (set_pending (delete (url permission) (pendingPermissionsRequests s))
           (set_allowedPages (<[url permission := permission]> (allowedPages s)) s))
  | None =>
      if inherited (url permission) then permissionGrant_inherited permission s
      else s
  end.

(** [permissionDenyOrRevoke] when the guard of line 146 is truthy only
    through an inherited property.  Line 147 deletes the record stored under
    the name; the prototype, which is what [__proto__] gives, is not a
    property of the table and stays.  Line 148 calls the builtin, and line
    149 finds nothing to delete. *)
Definition permissionDenyOrRevoke_inherited (permission : PermissionRequest)
    (s : Service) : Service :=
  let s' := if bool_decide (url permission = "__proto__") then s
            else set_allowedPages (delete (url permission) (allowedPages s)) s in
  if callThrows (url permission) then throw "TypeError" s' else s'.

Definition permissionDenyOrRevoke (permission : PermissionRequest) (s : Service)
  : Service :=
  match pendingPermissionsRequests s !! url permission with
  | Some t =>
      resolve t
        (set_pending (delete (url permission) (pendingPermissionsRequests s))
           (set_allowedPages (delete (url permission) (allowedPages s)) s))
  | None =>
      if inherited (url permission) then permissionDenyOrRevoke_inherited permission s
      else s
  end.

(** What can happen to the service. *)
Inductive Event :=
| Message (port : Port) (event : PortRequestEvent)
| WindowCreated (t : nat)
| WindowFailed (t : nat)
| PermissionGranted (permission : PermissionRequest)
| PermissionDenied (permission : PermissionRequest).

Definition step (e : Event) (s : Service) : Service :=
  match e with
  | Message port event => onMessage port event s
  | WindowCreated t => windowCreated t s
  | WindowFailed t => windowFailed t s
  | PermissionGranted p => permissionGrant p s
  | PermissionDenied p => permissionDenyOrRevoke p s
  end.

Fixpoint run (tr : list Event) (s : Service) : Service :=
  match tr with
  | [] => s
  | e :: tr' => run tr' (step e s)
  end.

(** The process is restarted: only the database outlives it. *)
Definition restart (s : Service) : Service := create (db s).

(** Invocations of the approval UI: the calls of
    [showDappConnectWindow("/permission")], whether or not the window then
    comes to exist. *)
Definition approvalWindows (s : Service) : list string :=
  filter (λ w, w = "/permission") (windows s).

(** The request a task serves, and the requests a trace delivers. *)
Definition task_request (task : Task) : Port * PortRequestEvent :=
  (task_port task, task_event task).

Definition received (tr : list Event) : list (Port * PortRequestEvent) :=
  omap (λ e, match e with Message port event => Some (port, event) | _ => None end) tr.

(** A stored resolver belongs to a listener that is blocked on it and whose
    port has the url under which the resolver is stored. *)
Definition pending_wf (s : Service) : Prop :=
  ∀ u t, pendingPermissionsRequests s !! u = Some t →
    ∃ task, tasks s !! t = Some task
            ∧ pc task = AwaitUserAction
            ∧ sender_url (task_port task) = u.

(** A posted message answers the request of some task: same port, same id. *)
Definition answers (l : list (Port * PortRequestEvent))
    (m : Port * PortResponseEvent) : Prop :=
  ∃ event, (m.1, event) ∈ l ∧ id event = resp_id m.2.

Definition correlated (s : Service) : Prop :=
  Forall (answers (task_request <$> tasks s)) (posted s).



End ProviderBridgeService.

Arguments Service : clear implicits.

(** ** A concrete setting for the scenarios *)

Definition dapp : string := "https://dapp.example".
Definition other : string := "https://other.example".

Definition dappPort : Port := mkPort 0 dapp None.
Definition dappPort' : Port := mkPort 1 dapp (Some "https://dapp.example/favicon.ico").
Definition otherPort : Port := mkPort 2 other None.

Definition accounts : Value := VArr [VStr "0x1f9090aaE28b8a3dCeaDf281B0F12828e676c326"].

Definition exampleProvider (m : string) (p : Value) : option Value :=
  if bool_decide (m = "eth_accounts") then Some accounts
  else if bool_decide (m = "eth_chainId") then Some (VStr "0x1")
  else if bool_decide (m = "eth_sendTransaction") then Some (VStr "0xhash")
  else None.

Definition call (i m : string) : PortRequestEvent :=
  mkPortRequestEvent i (mkRPCRequest m (VArr [])).

Definition allowDapp : PermissionRequest := mkPermissionRequest dapp "" "allow".
Definition denyDapp : PermissionRequest := mkPermissionRequest dapp "" "deny".

(** The service after [dapp] asked for accounts and the human granted. *)
Definition grantedService : Service unit :=
  run exampleProvider
    [Message dappPort (call "a" "eth_requestAccounts");
     WindowCreated 0;
     PermissionGranted allowDapp]
    (create tt).

Definition allowOther : PermissionRequest := mkPermissionRequest other "" "allow".

(** Both origins asked for accounts and were granted. *)
Definition bothGranted : Service unit :=
  run exampleProvider
    [Message otherPort (call "x" "eth_requestAccounts");
     WindowCreated 1;
     PermissionGranted allowOther]
    grantedService.

(** Two requests of [dapp] arrive before any decision. *)
Definition twoRequests : Service unit :=
  run exampleProvider
    [Message dappPort (call "a" "eth_requestAccounts");
     Message dappPort (call "b" "eth_requestAccounts")]
    (create tt).

(** Both approval windows exist. *)
Definition twoRequestsWaiting : Service unit :=
  run exampleProvider [WindowCreated 0; WindowCreated 1] twoRequests.

(** Then the human grants. *)
Definition twoRequestsGranted : Service unit :=
  run exampleProvider [PermissionGranted allowDapp] twoRequestsWaiting.

(** [other] is allowed and has a second approval round open, with a blocked
    listener; [dapp] waits for its first decision. *)
Definition twoOrigins : Service unit :=
  run exampleProvider
    [Message otherPort (call "x" "eth_requestAccounts");
     Message otherPort (call "y" "eth_requestAccounts");
     WindowCreated 0;
     PermissionGranted allowOther;
     WindowCreated 1;
     Message dappPort (call "a" "eth_requestAccounts");
     WindowCreated 2]
    (create tt).



(** The service while the approval round of [dapp] is open. *)
Definition waitingService : Service unit :=
  run exampleProvider
    [Message dappPort (call "a" "eth_requestAccounts");
     WindowCreated 0]
    (create tt).

(** ** Connections, windows and counters *)

#[global] Instance Pc_eq_dec : EqDecision Pc.
Proof. solve_decision. Defined.

(** The ports [browser.runtime.onConnect] hands to the constructor: the
    sender, its url and its tab may all be missing. *)
Record Tab := mkTab {
  tab_favIconUrl : option string
}.

Record MessageSender := mkMessageSender {
  ms_url : option string;
  ms_tab : option Tab
}.

Record RuntimePort := mkRuntimePort {
  rp_handle : nat;
  rp_name : string;
  rp_sender : option MessageSender
}.

(** Lines 59-67: a listener is attached when
    [port.name === EXTERNAL_PORT_NAME && port.sender?.url]; the empty url is
    falsy.  The result is the port the attached listener closes over.  The
    constant is declared in the shared package and is a parameter here. *)
Definition onConnect (EXTERNAL_PORT_NAME : string) (port : RuntimePort)
  : option Port :=
  if bool_decide (rp_name port = EXTERNAL_PORT_NAME) then
    match rp_sender port with
    | Some sender =>
        match ms_url sender with
        | Some u =>
            if bool_decide (u = "") then None
            else Some (mkPort (rp_handle port) u (ms_tab sender ≫= tab_favIconUrl))
        | None => None
        end
    | None => None
    end
  else None.

(** Lines 177-192: what [showDappConnectWindow] passes to
    [browser.windows.create], from the window [browser.windows.getCurrent]
    reports.  [left] and [width] have defaults; [top] is passed on as it is. *)
Record WindowInfo := mkWindowInfo {
  win_left : option Z;
  win_top : option Z;
  win_width : option Z
}.

Record CreateData := mkCreateData {
  cd_url : string;
  cd_type : string;
  cd_left : Z;
  cd_top : option Z;
  cd_width : Z;
  cd_height : Z;
  cd_focused : bool
}.

Definition popupWidth : Z := 400.
Definition popupHeight : Z := 600.

Definition showDappConnectWindow_createData (getURL : string → string)
    (current : WindowInfo) (page : string) : CreateData :=
  let left := default 0%Z (win_left current) in
  let width := default 1920%Z (win_width current) in
  mkCreateData (getURL "popup.html" +:+ "?page=" +:+ page) "popup"
    (left + width - popupWidth)%Z (win_top current)
    popupWidth popupHeight true.

(** Number of listeners that have posted their response. *)
Definition finished {DB : Type} (s : Service DB) : nat :=
  length (filter (λ task, pc task = Finished) (tasks s)).

(** A call into the internal provider that stems from one of the requests
    [l]: the params are those of the request, the method is translated. *)
Definition engineCallOf (l : list (Port * PortRequestEvent))
    (c : string * Value) : Prop :=
  ∃ port event, (port, event) ∈ l
                ∧ c = (internalMethod (method (request event)),
                       params (request event)).

(** The event is a decision of the human. *)
Definition is_decision (e : Event) : Prop :=
  match e with
  | PermissionGranted _ | PermissionDenied _ => True
  | _ => False
  end.

(** A permission request as the listener emits it for one of the requests
    [l]: url and icon are those of the port, the state is "request". *)
Definition approvalRequestOf (l : list (Port * PortRequestEvent))
    (q : PermissionRequest) : Prop :=
  ∃ port event, (port, event) ∈ l
                ∧ method (request event) = "eth_requestAccounts"
                ∧ q = mkPermissionRequest (sender_url port)
                        (default "" (sender_tab_favIconUrl port)) "request".

(** What a listener waits for fits the method of its request. *)
Definition pc_fits_method (task : Task) : Prop :=
  match pc task with
  | AwaitPermissionWindow | AwaitUserAction =>
      method (request (task_event task)) = "eth_requestAccounts"
  | AwaitSignWindow =>
      method (request (task_event task)) = "eth_sendTransaction"
  | Finished | Rejected => True
  end.




(** ** The logger *)

(** Strings of the logger are sequences of UTF-16 code units, so that
    [trim] can be given with the white space and line terminators of the
    language. *)
Definition codeUnits (s : string) : list N :=
  Ascii.N_of_ascii <$> String.list_ascii_of_string s.

Definition isWhiteSpace (c : N) : bool :=
  ((9 <=? c) && (c <=? 13) || (c =? 32) || (c =? 160) || (c =? 5760)
   || (8192 <=? c) && (c <=? 8202) || (c =? 8232) || (c =? 8233)
   || (c =? 8239) || (c =? 8287) || (c =? 12288) || (c =? 65279))%N.

Fixpoint trimStart (l : list N) : list N :=
  match l with
  | c :: l' => if isWhiteSpace c then trimStart l' else l
  | [] => []
  end.

Definition trim (l : list N) : list N :=
  reverse (trimStart (reverse (trimStart l))).

(** [stack.split("\n")] *)
Fixpoint splitLines (s : list N) : list (list N) :=
  match s with
  | [] => [[]]
  | c :: s' =>
      if (c =? 10)%N then [] :: splitLines s'
      else match splitLines s' with
           | l :: ls => (c :: l) :: ls
           | [] => [[c]]
           end
  end.

(** The callback of [filter] in [genericLogger]. *)
Definition keepLine (line : list N) : bool :=
  negb (bool_decide (trim line = []) || bool_decide (trim line = codeUnits "Error")).

(** The lines that [genericLogger] prints for the stack [new Error().stack]. *)
Definition stackTrace (stack : list N) : list (list N) :=
  drop 2 (filter (λ line, keepLine line = true) (splitLines stack)).

Inductive LogLevel := log | info | warn | error.

Inductive ConsoleCall :=
| Spread (input : list Value)
| Lines (trace : list (list N)).

Definition genericLogger (level : LogLevel) (input : list Value) (stack : list N)
    (console : list (LogLevel * ConsoleCall)) : list (LogLevel * ConsoleCall) :=
  console ++ [(level, Spread input); (level, Lines (stackTrace stack))].

(** ** Start-up state of the redux store *)

Inductive JS :=
| JUndefined
| JNull
| JBool (b : bool)
| JNum (n : Z)
| JBigInt (n : Z)
| JStr (s : string)
| JArr (l : list JS)
| JObj (fields : list (string * JS)).

Definition typeof (v : JS) : string :=
  match v with
  | JUndefined => "undefined"
  | JNull => "object"
  | JBool _ => "boolean"
  | JNum _ => "number"
  | JBigInt _ => "bigint"
  | JStr _ => "string"
  | JArr _ => "object"
  | JObj _ => "object"
  end.

Definition isNull (v : JS) : bool :=
  match v with JNull => true | _ => false end.

(** How [Main.create] ends up with respect to the saved state. *)
Inductive Startup :=
| Started (savedReduxState : JS)
| Thrown (message : string)
| DecodeFailed.

Section ReduxCache.

(** [encodeJSON] and [decodeJSON] of [lib/utils]; [None] is a thrown
    exception.  Under the key "state" the storage holds the strings that
    [reduxCache] writes. *)
Variable encodeJSON : JS → string.
Variable decodeJSON : string → option JS.

(** The middleware [reduxCache]: [next] runs the rest of the chain on the
    store state. *)
Definition reduxCache {R Action : Type} (WRITE_REDUX_CACHE : option string)
    (next : Action → JS → R * JS) (action : Action)
    (store : JS) (storage : gmap string string)
  : R * JS * gmap string string :=
  let '(result, state) := next action store in
  if bool_decide (WRITE_REDUX_CACHE = Some "true") then
    (result, state, <["state" := encodeJSON state]> storage)
  else (result, state, storage).

(** The part of [Main.create] that computes [savedReduxState]. *)
Definition savedReduxState (READ_REDUX_CACHE : option string)
    (storage : gmap string string) : Startup :=
  if bool_decide (READ_REDUX_CACHE = Some "true") then
    match storage !! "state" with
    | Some state =>
        if bool_decide (state = "") then Started (JObj [])
        else
          match decodeJSON state with
          | Some restoredState =>
              if bool_decide (typeof restoredState = "object")
                 && negb (isNull restoredState)
              then Started restoredState
              else Thrown ("Unexpected JSON persisted for state: " +:+ state)
          | None => DecodeFailed
          end
    | None => Started (JObj [])
    end
  else Started (JObj []).

End ReduxCache.

(** A toy encoding of the states with at most one field [account], for the
    scenarios. *)
Definition exampleEncode (v : JS) : string :=
  match v with
  | JObj [("account", JStr a)] => "{account:" +:+ a +:+ "}"
  | JObj [] => "{}"
  | _ => "null"
  end.

Definition exampleDecode (s : string) : option JS :=
  if bool_decide (s = "{}") then Some (JObj [])
  else if bool_decide (s = "null") then Some JNull
  else if bool_decide (s = "{account:0xaa}") then Some (JObj [("account", JStr "0xaa")])
  else None.

(** ** The account shown by [DAppConnectRequest] *)

Section DAppConnectRequest.

(** The account totals of the selector; only the address is read. *)
Context {AccountTotal : Type}.
Variable address : AccountTotal → string.

(** The component starts from the read-only totals, calls [concat] with the
    imported ones without keeping the result, and takes the first total
    whose address is the current account.  [None] renders the empty
    fragment. *)
Definition currentAccountTotal (readOnly imported : option (list AccountTotal))
    (currentAccount : option string) : option AccountTotal :=
  let accountTotals := readOnly in
  let _ := match imported with
           | Some more => (λ l, l ++ more) <$> accountTotals
           | None => None
           end in
  match accountTotals with
  | Some l => head (filter (λ accountTotal, currentAccount = Some (address accountTotal)) l)
  | None => None
  end.

End DAppConnectRequest.

(** ** Frame properties of the building blocks *)

Section Frames.

Context {DB : Type}.
Variable engine : string → Value → option Value.

Implicit Types (s : Service DB) (port : Port) (event : PortRequestEvent).

Lemma set_pc_fields t c s :
  db (set_pc t c s) = db s
  ∧ allowedPages (set_pc t c s) = allowedPages s
  ∧ pendingPermissionsRequests (set_pc t c s) = pendingPermissionsRequests s
  ∧ emitted (set_pc t c s) = emitted s
  ∧ windows (set_pc t c s) = windows s
  ∧ engineCalls (set_pc t c s) = engineCalls s
  ∧ posted (set_pc t c s) = posted s.
Proof. unfold set_pc. destruct (tasks s !! t); simpl; repeat split. Qed.

Lemma set_pc_uncaught t c s : uncaught (set_pc t c s) = uncaught s.
Proof. unfold set_pc. by destruct (tasks s !! t). Qed.

(** A decision whose guard holds only through an inherited name touches
    nothing but the table of records and the list of uncaught errors. *)
Lemma stale_grant_fields (p : PermissionRequest) s :
  db (if inherited (url p) then permissionGrant_inherited p s else s) = db s
  ∧ pendingPermissionsRequests
      (if inherited (url p) then permissionGrant_inherited p s else s)
    = pendingPermissionsRequests s
  ∧ tasks (if inherited (url p) then permissionGrant_inherited p s else s) = tasks s
  ∧ emitted (if inherited (url p) then permissionGrant_inherited p s else s)
    = emitted s
  ∧ windows (if inherited (url p) then permissionGrant_inherited p s else s)
    = windows s
  ∧ engineCalls (if inherited (url p) then permissionGrant_inherited p s else s)
    = engineCalls s
  ∧ posted (if inherited (url p) then permissionGrant_inherited p s else s)
    = posted s.
Proof.
  unfold permissionGrant_inherited.
  destruct (inherited (url p)); [|done]. by destruct (callThrows (url p)).
Qed.

Lemma stale_deny_fields (p : PermissionRequest) s :
  db (if inherited (url p) then permissionDenyOrRevoke_inherited p s else s) = db s
  ∧ pendingPermissionsRequests
      (if inherited (url p) then permissionDenyOrRevoke_inherited p s else s)
    = pendingPermissionsRequests s
  ∧ tasks (if inherited (url p) then permissionDenyOrRevoke_inherited p s else s)
    = tasks s
  ∧ emitted (if inherited (url p) then permissionDenyOrRevoke_inherited p s else s)
    = emitted s
  ∧ windows (if inherited (url p) then permissionDenyOrRevoke_inherited p s else s)
    = windows s
  ∧ engineCalls
      (if inherited (url p) then permissionDenyOrRevoke_inherited p s else s)
    = engineCalls s
  ∧ posted (if inherited (url p) then permissionDenyOrRevoke_inherited p s else s)
    = posted s.
Proof.
  unfold permissionDenyOrRevoke_inherited.
  destruct (inherited (url p)); [|done].
  by destruct (callThrows (url p)), (bool_decide (url p = "__proto__")).
Qed.

Lemma stale_grant_allowedPages (p : PermissionRequest) s :
  allowedPages (if inherited (url p) then permissionGrant_inherited p s else s)
  = if inherited (url p) then <[url p := p]> (allowedPages s) else allowedPages s.
Proof.
  unfold permissionGrant_inherited.
  destruct (inherited (url p)); [|done]. by destruct (callThrows (url p)).
Qed.

Lemma stale_deny_allowedPages (p : PermissionRequest) s :
  allowedPages (if inherited (url p) then permissionDenyOrRevoke_inherited p s else s)
  = if inherited (url p) && negb (bool_decide (url p = "__proto__"))
    then delete (url p) (allowedPages s) else allowedPages s.
Proof.
  unfold permissionDenyOrRevoke_inherited.
  destruct (inherited (url p)); [|done].
  by destruct (callThrows (url p)), (bool_decide (url p = "__proto__")).
Qed.

Lemma set_pc_length t c s : length (tasks (set_pc t c s)) = length (tasks s).
Proof.
  unfold set_pc. destruct (tasks s !! t); simpl; [apply length_insert | done].
Qed.

Lemma set_pc_lookup_ne t t' c s :
  t ≠ t' → tasks (set_pc t c s) !! t' = tasks s !! t'.
Proof.
  intros Hne. unfold set_pc. destruct (tasks s !! t); simpl; [|done].
  by apply list_lookup_insert_ne.
Qed.

Lemma set_pc_lookup_eq t c s task :
  tasks s !! t = Some task →
  tasks (set_pc t c s) !! t = Some (mkTask (task_port task) (task_event task) c).
Proof.
  intros Ht. unfold set_pc. rewrite Ht. simpl.
  apply list_lookup_insert_eq. by eapply lookup_lt_Some.
Qed.


Lemma forward_fields port event s :
  db (forward engine port event s).2 = db s
  ∧ allowedPages (forward engine port event s).2 = allowedPages s
  ∧ pendingPermissionsRequests (forward engine port event s).2
    = pendingPermissionsRequests s
  ∧ tasks (forward engine port event s).2 = tasks s
  ∧ emitted (forward engine port event s).2 = emitted s
  ∧ windows (forward engine port event s).2 = windows s.
Proof.
  unfold forward, routeContentScriptRPCRequest.
  destruct (engine _ _); simpl; repeat split.
Qed.

Lemma respond_fields port event s :
  db (respond engine port event s).2 = db s
  ∧ allowedPages (respond engine port event s).2 = allowedPages s
  ∧ pendingPermissionsRequests (respond engine port event s).2
    = pendingPermissionsRequests s
  ∧ tasks (respond engine port event s).2 = tasks s
  ∧ emitted (respond engine port event s).2 = emitted s.
Proof.
  unfold respond.
  destruct (permissionCheck s _); [|simpl; repeat split].
  case_bool_decide; [simpl; repeat split|].
  destruct (forward_fields port event s) as (?&?&?&?&?&?). repeat split; done.
Qed.

End Frames.

(** Rewrites the fields that a decision without a stored resolver leaves
    alone. *)
Ltac stale p s :=
  let G1 := fresh in let G2 := fresh in let G3 := fresh in let G4 := fresh in
  let G5 := fresh in let G6 := fresh in let G7 := fresh in
  let D1 := fresh in let D2 := fresh in let D3 := fresh in let D4 := fresh in
  let D5 := fresh in let D6 := fresh in let D7 := fresh in
  destruct (stale_grant_fields p s) as (G1&G2&G3&G4&G5&G6&G7);
  destruct (stale_deny_fields p s) as (D1&D2&D3&D4&D5&D6&D7);
  rewrite ?G1, ?G2, ?G3, ?G4, ?G5, ?G6, ?G7, ?D1, ?D2, ?D3, ?D4, ?D5, ?D6, ?D7;
  clear G1 G2 G3 G4 G5 G6 G7 D1 D2 D3 D4 D5 D6 D7.

(** ** Invariants of the step function *)

Section Invariants.

Context {DB : Type}.
Variable engine : string → Value → option Value.

Implicit Types (s : Service DB) (port : Port) (event : PortRequestEvent).

Lemma set_pc_requests t c s :
  task_request <$> tasks (set_pc t c s) = task_request <$> tasks s.
Proof.
  unfold set_pc. destruct (tasks s !! t) as [task|] eqn:Ht; simpl; [|done].
  rewrite list_fmap_insert. apply list_insert_id.
  rewrite list_lookup_fmap, Ht. done.
Qed.

Lemma onMessage_requests port event s :
  task_request <$> tasks (onMessage engine port event s)
  = (task_request <$> tasks s) ++ [(port, event)].
Proof.
  unfold onMessage.
  destruct (_ && _); simpl.
  - by rewrite fmap_app.
  - destruct (respond engine port event s) as [c s'] eqn:E. simpl.
    rewrite fmap_app. simpl.
    destruct (respond_fields engine port event s) as (_&_&_&Ht&_).
    rewrite E in Ht. simpl in Ht. by rewrite Ht.
Qed.

Lemma resolve_requests t s :
  task_request <$> tasks (resolve engine t s) = task_request <$> tasks s.
Proof.
  unfold resolve. destruct (tasks s !! t) as [task|]; [|done].
  destruct (pc task); try done.
  destruct (respond engine (task_port task) (task_event task) s) as [c s'] eqn:E.
  rewrite set_pc_requests.
  destruct (respond_fields engine (task_port task) (task_event task) s) as (_&_&_&Ht&_).
  rewrite E in Ht. simpl in Ht. by rewrite Ht.
Qed.

Lemma step_requests e s :
  task_request <$> tasks (step engine e s)
  = (task_request <$> tasks s) ++ received [e].
Proof.
  destruct e as [port event|t|t|p|p]; simpl.
  - apply onMessage_requests.
  - rewrite app_nil_r. unfold windowCreated.
    destruct (tasks s !! t) as [task|]; [|done].
    destruct (pc task); try done.
    + by rewrite set_pc_requests.
    + destruct (forward engine (task_port task) (task_event task) s) as [c s'] eqn:E.
      rewrite set_pc_requests.
      destruct (forward_fields engine (task_port task) (task_event task) s)
        as (_&_&_&Ht&_).
      rewrite E in Ht. simpl in Ht. by rewrite Ht.
  - rewrite app_nil_r. unfold windowFailed.
    destruct (tasks s !! t) as [task|]; [|done].
    destruct (pc task); try done; by rewrite set_pc_requests.
  - rewrite app_nil_r. unfold permissionGrant.
    destruct (pendingPermissionsRequests s !! url p); [|by stale p s].
    by rewrite resolve_requests.
  - rewrite app_nil_r. unfold permissionDenyOrRevoke.
    destruct (pendingPermissionsRequests s !! url p); [|by stale p s].
    by rewrite resolve_requests.
Qed.

Lemma received_app tr1 tr2 : received (tr1 ++ tr2) = received tr1 ++ received tr2.
Proof. unfold received. apply omap_app. Qed.

Lemma run_requests tr s :
  task_request <$> tasks (run engine tr s)
  = (task_request <$> tasks s) ++ received tr.
Proof.
  revert s. induction tr as [|e tr IH]; intros s.
  - simpl. by rewrite app_nil_r.
  - cbn [run]. rewrite IH, step_requests, <- app_assoc.
    by rewrite <- received_app.
Qed.

(** *** What a step posts *)

Lemma forward_posted port event s :
  posted (forward engine port event s).2 = posted s
  ∨ ∃ b, posted (forward engine port event s).2
         = posted s ++ [(port, mkPortResponseEvent (id event) b)].
Proof.
  unfold forward, routeContentScriptRPCRequest.
  destruct (engine _ _); simpl; eauto.
Qed.

Lemma respond_posted port event s :
  posted (respond engine port event s).2 = posted s
  ∨ ∃ b, posted (respond engine port event s).2
         = posted s ++ [(port, mkPortResponseEvent (id event) b)].
Proof.
  unfold respond. destruct (permissionCheck s _); [|simpl; eauto].
  case_bool_decide; [simpl; eauto|]. apply forward_posted.
Qed.

Lemma onMessage_tasks port event s :
  ∃ c, tasks (onMessage engine port event s) = tasks s ++ [mkTask port event c].
Proof.
  unfold onMessage. destruct (_ && _); simpl; [eauto|].
  destruct (respond engine port event s) as [c s'] eqn:E. simpl.
  destruct (respond_fields engine port event s) as (_&_&_&Ht&_).
  rewrite E in Ht. simpl in Ht. rewrite Ht. eauto.
Qed.

Lemma onMessage_pending port event s :
  pendingPermissionsRequests (onMessage engine port event s)
  = pendingPermissionsRequests s.
Proof.
  unfold onMessage. destruct (_ && _); simpl; [done|].
  destruct (respond engine port event s) as [c s'] eqn:E. simpl.
  destruct (respond_fields engine port event s) as (_&_&Hp&_).
  by rewrite E in Hp.
Qed.

Lemma onMessage_posted port event s :
  posted (onMessage engine port event s) = posted s
  ∨ ∃ b, posted (onMessage engine port event s)
         = posted s ++ [(port, mkPortResponseEvent (id event) b)].
Proof.
  unfold onMessage. destruct (_ && _); simpl; [eauto|].
  destruct (respond_posted port event s) as [H|H];
    destruct (respond engine port event s) as [c s']; simpl in *; eauto.
Qed.

Lemma resolve_fields t s :
  db (resolve engine t s) = db s
  ∧ allowedPages (resolve engine t s) = allowedPages s
  ∧ pendingPermissionsRequests (resolve engine t s) = pendingPermissionsRequests s
  ∧ emitted (resolve engine t s) = emitted s.
Proof.
  unfold resolve. destruct (tasks s !! t) as [task|]; [|done].
  destruct (pc task); try done.
  destruct (respond_fields engine (task_port task) (task_event task) s)
    as (?&?&?&?&?).
  destruct (respond engine (task_port task) (task_event task) s) as [c s'].
  destruct (set_pc_fields t c s') as (?&?&?&?&?). simpl in *.
  repeat split; congruence.
Qed.

Lemma resolve_lookup_ne t t' s :
  t ≠ t' → tasks (resolve engine t s) !! t' = tasks s !! t'.
Proof.
  intros Hne. unfold resolve. destruct (tasks s !! t) as [task|]; [|done].
  destruct (pc task); try done.
  destruct (respond_fields engine (task_port task) (task_event task) s)
    as (_&_&_&Ht&_).
  destruct (respond engine (task_port task) (task_event task) s) as [c s'].
  simpl in Ht. by rewrite set_pc_lookup_ne, Ht.
Qed.

Lemma resolve_posted t s :
  posted (resolve engine t s) = posted s
  ∨ ∃ task b, tasks s !! t = Some task
              ∧ posted (resolve engine t s)
                = posted s ++ [(task_port task,
                                mkPortResponseEvent (id (task_event task)) b)].
Proof.
  unfold resolve. destruct (tasks s !! t) as [task|] eqn:Ht; [|eauto].
  destruct (pc task); eauto.
  destruct (respond_posted (task_port task) (task_event task) s) as [H|[b H]];
    destruct (respond engine (task_port task) (task_event task) s) as [c s'];
    destruct (set_pc_fields t c s') as (_&_&_&_&_&_&Hp);
    rewrite Hp; simpl in *; eauto.
Qed.

Lemma step_posted e s :
  posted (step engine e s) = posted s
  ∨ ∃ port event b,
      (port, event) ∈ (task_request <$> tasks s) ++ received [e]
      ∧ posted (step engine e s)
        = posted s ++ [(port, mkPortResponseEvent (id event) b)].
Proof.
  destruct e as [port event|t|t|p|p]; simpl.
  - destruct (onMessage_posted port event s) as [H|[b H]]; [eauto|].
    right. exists port, event, b. split; [|done].
    apply elem_of_app. right. apply list_elem_of_singleton. done.
  - unfold windowCreated. destruct (tasks s !! t) as [task|] eqn:Ht; [|eauto].
    destruct (pc task); eauto.
    + left. by destruct (set_pc_fields t AwaitUserAction
        (set_pending (<[sender_url (task_port task) := t]>
           (pendingPermissionsRequests s)) s)) as (_&_&_&_&_&_&->).
    + destruct (forward_posted (task_port task) (task_event task) s) as [H|[b H]];
        destruct (forward engine (task_port task) (task_event task) s) as [c s'];
        destruct (set_pc_fields t c s') as (_&_&_&_&_&_&Hp);
        rewrite Hp; simpl in *; [eauto|].
      right. exists (task_port task), (task_event task), b. split; [|done].
      rewrite app_nil_r. apply list_elem_of_fmap. exists task. split; [done|].
      by eapply list_elem_of_lookup_2.
  - unfold windowFailed. destruct (tasks s !! t) as [task|]; [|eauto].
    left. destruct (pc task); try done;
      by destruct (set_pc_fields t Rejected s) as (_&_&_&_&_&_&->).
  - unfold permissionGrant.
    destruct (pendingPermissionsRequests s !! url p) as [t|]; [|stale p s; eauto].
    match goal with |- context [resolve engine t ?s1] =>
      destruct (resolve_posted t s1) as [H|(task&b&Ht&H)] end; [eauto|].
    right. exists (task_port task), (task_event task), b. split; [|done].
    rewrite app_nil_r. apply list_elem_of_fmap. exists task. split; [done|].
    by eapply list_elem_of_lookup_2.
  - unfold permissionDenyOrRevoke.
    destruct (pendingPermissionsRequests s !! url p) as [t|]; [|stale p s; eauto].
    match goal with |- context [resolve engine t ?s1] =>
      destruct (resolve_posted t s1) as [H|(task&b&Ht&H)] end; [eauto|].
    right. exists (task_port task), (task_event task), b. split; [|done].
    rewrite app_nil_r. apply list_elem_of_fmap. exists task. split; [done|].
    by eapply list_elem_of_lookup_2.
Qed.

Lemma answers_mono l l' m : answers l m → answers (l ++ l') m.
Proof.
  intros (event & Hin & Hid). exists event. split; [|done].
  apply elem_of_app. by left.
Qed.

Lemma correlated_step e s : correlated s → correlated (step engine e s).
Proof.
  unfold correlated. intros Hc. rewrite step_requests.
  destruct (step_posted e s) as [->|(port & event & b & Hin & ->)].
  - eapply Forall_impl; [exact Hc|]. intros m. apply answers_mono.
  - apply Forall_app. split.
    + eapply Forall_impl; [exact Hc|]. intros m. apply answers_mono.
    + apply Forall_singleton. exists event. done.
Qed.

Lemma correlated_run tr s : correlated s → correlated (run engine tr s).
Proof.
  revert s. induction tr as [|e tr IH]; intros s Hc; [done|].
  cbn [run]. apply IH. by apply correlated_step.
Qed.

(** *** Stored resolvers stay attached to blocked listeners *)

Lemma pending_wf_create (d : DB) : pending_wf (create d).
Proof. intros u t H. simpl in H. by rewrite lookup_empty in H. Qed.

Lemma pending_wf_resolve t s u :
  pending_wf s →
  (∀ task, tasks s !! t = Some task → sender_url (task_port task) = u) →
  pendingPermissionsRequests s !! u = None →
  pending_wf (resolve engine t s).
Proof.
  intros Hwf Hu Hnone u' t' Hp.
  destruct (resolve_fields t s) as (_&_&Hpend&_). rewrite Hpend in Hp.
  destruct (Hwf _ _ Hp) as (task' & Ht' & Hpc & Hurl).
  assert (t ≠ t') as Hne.
  { intros ->. specialize (Hu _ Ht'). congruence. }
  exists task'. by rewrite resolve_lookup_ne.
Qed.

Lemma pending_wf_set_pc t c s :
  pending_wf s →
  (∀ task, tasks s !! t = Some task → pc task ≠ AwaitUserAction) →
  pending_wf (set_pc t c s).
Proof.
  intros Hwf Hpc u t' Hp.
  destruct (set_pc_fields t c s) as (_&_&Hpend&_). rewrite Hpend in Hp.
  destruct (Hwf _ _ Hp) as (task' & Ht' & Hpc' & Hurl).
  assert (t ≠ t') as Hne.
  { intros ->. by eapply Hpc. }
  exists task'. by rewrite set_pc_lookup_ne.
Qed.

Lemma pending_wf_step e s : pending_wf s → pending_wf (step engine e s).
Proof.
  intros Hwf. destruct e as [port event|t|t|p|p]; simpl.
  - intros u t Hp. rewrite onMessage_pending in Hp.
    destruct (Hwf _ _ Hp) as (task & Ht & Hpc & Hurl).
    destruct (onMessage_tasks port event s) as [c ->].
    exists task. split; [|done]. by apply lookup_app_l_Some.
  - unfold windowCreated. destruct (tasks s !! t) as [task|] eqn:Ht; [|done].
    destruct (pc task) eqn:Hpc; try done.
    + intros u t' Hp.
      match type of Hp with context [set_pc t ?c ?s1] =>
        destruct (set_pc_fields t c s1) as (_&_&Hpend&_) end.
      rewrite Hpend in Hp. simpl in Hp.
      destruct (decide (sender_url (task_port task) = u)) as [<-|Hne].
      * rewrite lookup_insert_eq in Hp. injection Hp as <-.
        eexists. split; [by apply set_pc_lookup_eq|]. done.
      * rewrite lookup_insert_ne in Hp by done.
        destruct (Hwf _ _ Hp) as (task' & Ht' & Hpc' & Hurl).
        assert (t ≠ t') by (intros ->; congruence).
        exists task'. by rewrite set_pc_lookup_ne.
    + destruct (forward_fields engine (task_port task) (task_event task) s)
        as (_&_&Hp&Htk&_).
      destruct (forward engine (task_port task) (task_event task) s) as [c s'].
      simpl in *. apply pending_wf_set_pc.
      * intros u t' H. rewrite Hp in H. rewrite Htk. by apply Hwf.
      * intros task' H. rewrite Htk in H. congruence.
  - unfold windowFailed. destruct (tasks s !! t) as [task|] eqn:Ht; [|done].
    destruct (pc task) eqn:Hpc; try done;
      (apply pending_wf_set_pc; [done|intros task' H; congruence]).
  - unfold permissionGrant.
    destruct (pendingPermissionsRequests s !! url p) as [t|] eqn:Hp;
      [|unfold pending_wf in *; by stale p s].
    destruct (Hwf _ _ Hp) as (task & Ht & Hpc & Hurl).
    apply pending_wf_resolve with (u := url p); simpl.
    + intros u t' H. simpl in H. apply lookup_delete_Some in H as [_ H].
      by apply Hwf.
    + intros task' H. congruence.
    + apply lookup_delete_eq.
  - unfold permissionDenyOrRevoke.
    destruct (pendingPermissionsRequests s !! url p) as [t|] eqn:Hp;
      [|unfold pending_wf in *; by stale p s].
    destruct (Hwf _ _ Hp) as (task & Ht & Hpc & Hurl).
    apply pending_wf_resolve with (u := url p); simpl.
    + intros u t' H. simpl in H. apply lookup_delete_Some in H as [_ H].
      by apply Hwf.
    + intros task' H. congruence.
    + apply lookup_delete_eq.
Qed.

Lemma pending_wf_run tr s : pending_wf s → pending_wf (run engine tr s).
Proof.
  revert s. induction tr as [|e tr IH]; intros s Hwf; [done|].
  cbn [run]. apply IH. by apply pending_wf_step.
Qed.

End Invariants.

(** ** The claims *)

Section Claims.

Context {DB : Type}.
Variable engine : string → Value → option Value.

Implicit Types (s : Service DB) (port : Port) (event : PortRequestEvent).

Lemma step_db e s : db (step engine e s) = db s.
Proof.
  destruct e as [port event|t|t|p|p]; simpl.
  - unfold onMessage. destruct (_ && _); simpl; [done|].
    destruct (respond_fields engine port event s) as (H&_).
    by destruct (respond engine port event s).
  - unfold windowCreated. destruct (tasks s !! t) as [task|]; [|done].
    destruct (pc task); try done.
    + match goal with |- context [set_pc t ?c ?s1] =>
        by destruct (set_pc_fields t c s1) as (->&_) end.
    + destruct (forward_fields engine (task_port task) (task_event task) s) as (H&_).
      destruct (forward engine (task_port task) (task_event task) s) as [c s'].
      by destruct (set_pc_fields t c s') as (->&_).
  - unfold windowFailed. destruct (tasks s !! t) as [task|]; [|done].
    destruct (pc task); try done; by destruct (set_pc_fields t Rejected s) as (->&_).
  - unfold permissionGrant.
    destruct (pendingPermissionsRequests s !! url p) as [t|]; [|by stale p s].
    match goal with |- context [resolve engine t ?s1] =>
      by destruct (resolve_fields engine t s1) as (->&_) end.
  - unfold permissionDenyOrRevoke.
    destruct (pendingPermissionsRequests s !! url p) as [t|]; [|by stale p s].
    match goal with |- context [resolve engine t ?s1] =>
      by destruct (resolve_fields engine t s1) as (->&_) end.
Qed.

Lemma run_db tr s : db (run engine tr s) = db s.
Proof.
  revert s. induction tr as [|e tr IH]; intros s; [done|].
  cbn [run]. by rewrite IH, step_db.
Qed.


Lemma respond_denied port event s :
  permissionCheck s (sender_url port) = false →
  respond engine port event s
  = (Finished,
     postMessage port (mkPortResponseEvent (id event) (Result (VArr []))) s).
Proof. unfold respond. by intros ->. Qed.

(** *** Runs in which no origin is ever allowed *)











(** C6 (amended): after a deny decision lands for an origin with a Pending
    Approval, the origin has no Permission Record at all: the handler
    deletes the entry of [allowedPages], also when the origin was allowed
    before.  The records of other origins are untouched. *)
Theorem deny_deletes_record s (p : PermissionRequest) (t : nat) :
  pendingPermissionsRequests s !! url p = Some t →
  allowedPages (permissionDenyOrRevoke engine p s) !! url p = None
  ∧ permissionCheck (permissionDenyOrRevoke engine p s) (url p) = false
  ∧ pendingPermissionsRequests (permissionDenyOrRevoke engine p s) !! url p = None
  ∧ ∀ u, u ≠ url p →
         allowedPages (permissionDenyOrRevoke engine p s) !! u
         = allowedPages s !! u.
Proof.
  intros H. unfold permissionDenyOrRevoke. rewrite H.
  match goal with |- context [resolve engine t ?s1] =>
    destruct (resolve_fields engine t s1) as (_&Ha&Hp&_) end.
  unfold permissionCheck. rewrite Ha, Hp. simpl.
  rewrite !lookup_delete_eq. split; [done|]. split; [done|]. split; [done|].
  intros u Hu. by rewrite lookup_delete_ne.
Qed.

(** C9 (amended): a granted Permission Record is held in the in-memory
    table [allowedPages] only.  The grant stores the record there; no step
    of the service changes the database; and a service constructed after a
    restart starts with an empty table, so no origin is allowed. *)
Theorem grants_are_in_memory_only s (p : PermissionRequest) (t : nat)
    (tr : list Event) :
  pendingPermissionsRequests s !! url p = Some t →
  allowedPages (permissionGrant engine p s) !! url p = Some p
  ∧ db (run engine tr (permissionGrant engine p s)) = db s
  ∧ allowedPages (restart (run engine tr (permissionGrant engine p s))) = ∅
  ∧ ∀ u, permissionCheck
           (restart (run engine tr (permissionGrant engine p s))) u = false.
Proof.
  intros H. split; [|split; [|split]].
  - unfold permissionGrant. rewrite H.
    match goal with |- context [resolve engine t ?s1] =>
      destruct (resolve_fields engine t s1) as (_&->&_) end.
    simpl. apply lookup_insert_eq.
  - rewrite run_db. apply (step_db (PermissionGranted p)).
  - done.
  - intros u. unfold permissionCheck, restart. simpl. by rewrite lookup_empty.
Qed.

(** *** Resuming a blocked listener *)

Lemma resolve_blocked (t : nat) s task :
  tasks s !! t = Some task → pc task = AwaitUserAction →
  resolve engine t s
  = set_pc t (respond engine (task_port task) (task_event task) s).1
             (respond engine (task_port task) (task_event task) s).2.
Proof.
  intros Ht Hpc. unfold resolve. rewrite Ht, Hpc.
  by destruct (respond engine (task_port task) (task_event task) s).
Qed.

Lemma resolve_denied (t : nat) s task :
  tasks s !! t = Some task → pc task = AwaitUserAction →
  permissionCheck s (sender_url (task_port task)) = false →
  resolve engine t s
  = set_pc t Finished
      (postMessage (task_port task)
         (mkPortResponseEvent (id (task_event task)) (Result (VArr []))) s).
Proof.
  intros Ht Hpc Hc. rewrite (resolve_blocked t s task) by done.
  by rewrite respond_denied.
Qed.

Lemma resolve_allowed (t : nat) s task :
  tasks s !! t = Some task → pc task = AwaitUserAction →
  permissionCheck s (sender_url (task_port task)) = true →
  method (request (task_event task)) ≠ "eth_sendTransaction" →
  resolve engine t s
  = set_pc t (forward engine (task_port task) (task_event task) s).1
             (forward engine (task_port task) (task_event task) s).2.
Proof.
  intros Ht Hpc Hc Hm. rewrite (resolve_blocked t s task) by done.
  unfold respond. rewrite Hc. by rewrite bool_decide_eq_false_2.
Qed.

Lemma onMessage_gate port event s :
  method (request event) = "eth_requestAccounts" →
  permissionCheck s (sender_url port) = false →
  onMessage engine port event s
  = set_tasks (tasks s ++ [mkTask port event AwaitPermissionWindow])
      (permissionRequest
         (mkPermissionRequest (sender_url port)
            (default "" (sender_tab_favIconUrl port)) "request") s).
Proof.
  intros Hm Hc. unfold onMessage. rewrite Hc.
  by rewrite bool_decide_eq_true_2.
Qed.

Lemma onMessage_direct port event s :
  method (request event) ≠ "eth_requestAccounts"
  ∨ permissionCheck s (sender_url port) = true →
  onMessage engine port event s
  = set_tasks (tasks s ++ [mkTask port event (respond engine port event s).1])
      (respond engine port event s).2.
Proof.
  intros H. unfold onMessage.
  assert (bool_decide (method (request event) = "eth_requestAccounts")
          && negb (permissionCheck s (sender_url port)) = false) as ->.
  { destruct H as [H|H].
    - by rewrite bool_decide_eq_false_2.
    - rewrite H. apply andb_false_r. }
  destruct (respond_fields engine port event s) as (_&_&_&Ht&_).
  destruct (respond engine port event s) as [c s']. simpl in *. by rewrite Ht.
Qed.

(** C5 (amended): when a deny decision lands for an origin with an
    outstanding Pending Approval, in any state the service can reach, the
    request whose resolver the Pending Approval holds receives, on its own
    port, a response envelope with its original identifier whose body is the
    success result with the empty array; no error is sent and the internal
    provider is not called. *)
Theorem deny_answers_with_empty_result (tr : list Event) (d : DB)
    (p : PermissionRequest) (t : nat) :
  pendingPermissionsRequests (run engine tr (create d)) !! url p = Some t →
  let s := run engine tr (create d) in
  ∃ task,
    tasks s !! t = Some task
    ∧ pc task = AwaitUserAction
    ∧ sender_url (task_port task) = url p
    ∧ posted (permissionDenyOrRevoke engine p s)
      = posted s ++ [(task_port task,
                      mkPortResponseEvent (id (task_event task)) (Result (VArr [])))]
    ∧ engineCalls (permissionDenyOrRevoke engine p s) = engineCalls s
    ∧ tasks (permissionDenyOrRevoke engine p s) !! t
      = Some (mkTask (task_port task) (task_event task) Finished).
Proof.
  intros Hp s.
  destruct (pending_wf_run engine tr (create d) (pending_wf_create d) _ _ Hp)
    as (task & Ht & Hpc & Hurl).
  exists task. fold s in Hp, Ht. split; [done|]. split; [done|]. split; [done|].
  unfold permissionDenyOrRevoke. rewrite Hp.
  rewrite (resolve_denied t _ task); [| done | done |].
  - match goal with |- context [set_pc t ?c ?s1] =>
      destruct (set_pc_fields t c s1) as (_&_&_&_&_&->&->) end.
    split; [done|]. split; [done|].
    by apply set_pc_lookup_eq.
  - unfold permissionCheck. simpl. by rewrite Hurl, lookup_delete_eq.
Qed.


(** *** Open approval rounds *)

Lemma approvalWindows_permissionRequest (q : PermissionRequest) s :
  approvalWindows (permissionRequest q s) = approvalWindows s ++ ["/permission"].
Proof. unfold approvalWindows. simpl. by rewrite filter_app. Qed.

Lemma respond_pc port event s :
  (respond engine port event s).1 ≠ AwaitUserAction.
Proof.
  unfold respond, forward, routeContentScriptRPCRequest.
  destruct (permissionCheck s _); [|done].
  case_bool_decide; [done|]. by destruct (engine _ _).
Qed.

Lemma decision_frame (t t' : nat) s (m : gmap string PermissionRequest)
    (q : gmap string nat) :
  t' ≠ t →
  tasks (resolve engine t (set_pending q (set_allowedPages m s))) !! t'
  = tasks s !! t'.
Proof. intros Hne. by rewrite resolve_lookup_ne. Qed.

Lemma decision_resumes (t : nat) s task (m : gmap string PermissionRequest)
    (q : gmap string nat) :
  tasks s !! t = Some task → pc task = AwaitUserAction →
  ∃ c, c ≠ AwaitUserAction
       ∧ tasks (resolve engine t (set_pending q (set_allowedPages m s))) !! t
         = Some (mkTask (task_port task) (task_event task) c).
Proof.
  intros Ht Hpc.
  rewrite (resolve_blocked t _ task) by done.
  eexists. split; [apply respond_pc|].
  destruct (respond_fields engine (task_port task) (task_event task)
              (set_pending q (set_allowedPages m s))) as (_&_&_&Htk&_).
  apply set_pc_lookup_eq. by rewrite Htk.
Qed.

(** C1 (amended): for every origin that is not allowed and every sequence
    of N [eth_requestAccounts] requests from it received before a decision
    lands, the approval UI is invoked once per request, N times in all, and
    every request is suspended.  The Pending Approval table has one entry
    per origin: the resolver stored when an approval window has been created
    replaces the one stored before.  When the decision lands, the entry is
    cleared and only the request whose resolver the entry held is resumed;
    every other listener stays as it was. *)
Theorem concurrent_requests_prompt_each_time s (u : string)
    (reqs : list (Port * PortRequestEvent)) :
  permissionCheck s u = false →
  Forall (λ r, sender_url r.1 = u
               ∧ method (request r.2) = "eth_requestAccounts") reqs →
  (length (approvalWindows (run engine ((λ r, Message r.1 r.2) <$> reqs) s))
   = length (approvalWindows s) + length reqs
   ∧ length (emitted (run engine ((λ r, Message r.1 r.2) <$> reqs) s))
     = length (emitted s) + length reqs
   ∧ tasks (run engine ((λ r, Message r.1 r.2) <$> reqs) s)
     = tasks s ++ ((λ r, mkTask r.1 r.2 AwaitPermissionWindow) <$> reqs)
   ∧ posted (run engine ((λ r, Message r.1 r.2) <$> reqs) s) = posted s
   ∧ pendingPermissionsRequests (run engine ((λ r, Message r.1 r.2) <$> reqs) s)
     = pendingPermissionsRequests s)
  ∧ (∀ s0 (t : nat) task,
       tasks s0 !! t = Some task → pc task = AwaitPermissionWindow →
       pendingPermissionsRequests (windowCreated engine t s0)
       = <[sender_url (task_port task) := t]> (pendingPermissionsRequests s0))
  ∧ (∀ s0 (p : PermissionRequest) (t : nat) task,
       pendingPermissionsRequests s0 !! url p = Some t →
       tasks s0 !! t = Some task → pc task = AwaitUserAction →
       pendingPermissionsRequests (permissionGrant engine p s0) !! url p = None
       ∧ pendingPermissionsRequests (permissionDenyOrRevoke engine p s0) !! url p
         = None
       ∧ (∃ c, c ≠ AwaitUserAction
               ∧ tasks (permissionGrant engine p s0) !! t
                 = Some (mkTask (task_port task) (task_event task) c))
       ∧ (∃ c, c ≠ AwaitUserAction
               ∧ tasks (permissionDenyOrRevoke engine p s0) !! t
                 = Some (mkTask (task_port task) (task_event task) c))
       ∧ ∀ t', t' ≠ t →
               tasks (permissionGrant engine p s0) !! t' = tasks s0 !! t'
               ∧ tasks (permissionDenyOrRevoke engine p s0) !! t' = tasks s0 !! t').
Proof.
  intros Hc Hall. split; [|split].
  - revert s Hc. induction Hall as [|r reqs [Hu Hm] _ IH]; intros s Hc.
    + simpl. rewrite !Nat.add_0_r, app_nil_r. done.
    + rewrite fmap_cons. cbn [run step].
      rewrite onMessage_gate by (by rewrite ?Hu).
      match goal with |- context [run engine _ ?s1] =>
        destruct (IH s1) as (IH1 & IH2 & IH3 & IH4 & IH5) end.
      { done. }
      rewrite IH1, IH2, IH3, IH4, IH5. cbn [tasks set_tasks posted
        pendingPermissionsRequests emitted permissionRequest emit
        showDappConnectWindow].
      change (approvalWindows (set_tasks ?l ?s1)) with (approvalWindows s1).
      rewrite approvalWindows_permissionRequest, !length_app, fmap_cons.
      cbn [length]. rewrite <- app_assoc.
      repeat split; try done; lia.
  - intros s0 t task Ht Hpc. unfold windowCreated. rewrite Ht, Hpc.
    match goal with |- context [set_pc t ?c ?s1] =>
      by destruct (set_pc_fields t c s1) as (_&_&->&_) end.
  - intros s0 p t task Hp Ht Hpc.
    unfold permissionGrant, permissionDenyOrRevoke. rewrite Hp.
    split; [|split; [|split; [|split]]].
    + match goal with |- context [resolve engine t ?s1] =>
        destruct (resolve_fields engine t s1) as (_&_&->&_) end.
      apply lookup_delete_eq.
    + match goal with |- context [resolve engine t ?s1] =>
        destruct (resolve_fields engine t s1) as (_&_&->&_) end.
      apply lookup_delete_eq.
    + by apply decision_resumes.
    + by apply decision_resumes.
    + intros t' Hne. split; by apply decision_frame.
Qed.

(** *** Requests that do not open an approval round *)

Lemma onMessage_denied port event s :
  method (request event) ≠ "eth_requestAccounts" →
  permissionCheck s (sender_url port) = false →
  onMessage engine port event s
  = set_tasks (tasks s ++ [mkTask port event Finished])
      (postMessage port (mkPortResponseEvent (id event) (Result (VArr []))) s).
Proof.
  intros Hm Hc. rewrite onMessage_direct by auto. by rewrite respond_denied.
Qed.

Lemma onMessage_forward port event s :
  permissionCheck s (sender_url port) = true →
  method (request event) ≠ "eth_sendTransaction" →
  onMessage engine port event s
  = set_tasks (tasks s ++ [mkTask port event (forward engine port event s).1])
      (forward engine port event s).2.
Proof.
  intros Hc Hm. rewrite onMessage_direct by auto.
  unfold respond. rewrite Hc. by rewrite bool_decide_eq_false_2.
Qed.

Lemma onMessage_sign port event s :
  permissionCheck s (sender_url port) = true →
  method (request event) = "eth_sendTransaction" →
  onMessage engine port event s
  = set_tasks (tasks s ++ [mkTask port event AwaitSignWindow])
      (showDappConnectWindow "/signTransaction" s).
Proof.
  intros Hc Hm. rewrite onMessage_direct by auto.
  unfold respond. rewrite Hc. by rewrite bool_decide_eq_true_2.
Qed.

(** C4 (amended): a request for a method other than [eth_requestAccounts]
    (such as [eth_chainId]) from an origin that is not allowed, in
    particular one with no Permission Record at all, is answered at once,
    without any approval round, with the empty array as result, and the
    internal provider is not called.  Such a request is forwarded directly
    to the internal provider, and answered with its result, when the origin
    is allowed. *)
Theorem open_method_needs_permission s port event :
  method (request event) ≠ "eth_requestAccounts" →
  (permissionCheck s (sender_url port) = false →
   posted (onMessage engine port event s)
   = posted s ++ [(port, mkPortResponseEvent (id event) (Result (VArr [])))]
   ∧ engineCalls (onMessage engine port event s) = engineCalls s
   ∧ windows (onMessage engine port event s) = windows s
   ∧ emitted (onMessage engine port event s) = emitted s
   ∧ pendingPermissionsRequests (onMessage engine port event s)
     = pendingPermissionsRequests s)
  ∧ (permissionCheck s (sender_url port) = true →
     method (request event) ≠ "eth_sendTransaction" →
     engineCalls (onMessage engine port event s)
     = engineCalls s ++ [(method (request event), params (request event))]
     ∧ windows (onMessage engine port event s) = windows s
     ∧ emitted (onMessage engine port event s) = emitted s
     ∧ ∀ v, engine (method (request event)) (params (request event)) = Some v →
            posted (onMessage engine port event s)
            = posted s ++ [(port, mkPortResponseEvent (id event) (Result v))]).
Proof.
  intros Hm. split.
  - intros Hc. by rewrite onMessage_denied.
  - intros Hc Hs. rewrite onMessage_forward by done.
    unfold forward, routeContentScriptRPCRequest, internalMethod.
    rewrite bool_decide_eq_false_2 by done.
    destruct (engine _ _) as [v|] eqn:E; simpl; repeat split; try done.
    by intros ? [= ->].
Qed.

(** C7 (amended): for an origin whose Permission Record has state "allow",
    a subsequent request invokes no approval UI: no permission request is
    emitted, no [/permission] window is opened and no Pending Approval is
    stored.  For every method other than [eth_sendTransaction], in
    particular [eth_requestAccounts], no window at all is opened and the
    request goes to the internal provider at once.  For
    [eth_sendTransaction] the [/signTransaction] window is opened first and
    the internal provider is called once that window exists. *)
Theorem allowed_origin_skips_approval s port event :
  permissionCheck s (sender_url port) = true →
  (emitted (onMessage engine port event s) = emitted s
   ∧ approvalWindows (onMessage engine port event s) = approvalWindows s
   ∧ pendingPermissionsRequests (onMessage engine port event s)
     = pendingPermissionsRequests s)
  ∧ (method (request event) ≠ "eth_sendTransaction" →
     windows (onMessage engine port event s) = windows s
     ∧ engineCalls (onMessage engine port event s)
       = engineCalls s ++ [(internalMethod (method (request event)),
                            params (request event))]
     ∧ ∀ v, engine (internalMethod (method (request event)))
              (params (request event)) = Some v →
            posted (onMessage engine port event s)
            = posted s ++ [(port, mkPortResponseEvent (id event) (Result v))])
  ∧ (method (request event) = "eth_sendTransaction" →
     windows (onMessage engine port event s) = windows s ++ ["/signTransaction"]
     ∧ engineCalls (onMessage engine port event s) = engineCalls s
     ∧ posted (onMessage engine port event s) = posted s
     ∧ tasks (onMessage engine port event s)
       = tasks s ++ [mkTask port event AwaitSignWindow]
     ∧ engineCalls (windowCreated engine (length (tasks s))
                      (onMessage engine port event s))
       = engineCalls s ++ [("eth_sendTransaction", params (request event))]).
Proof.
  intros Hc. split; [|split].
  - destruct (decide (method (request event) = "eth_sendTransaction")) as [Hm|Hm].
    + rewrite onMessage_sign by done. unfold approvalWindows. simpl.
      rewrite filter_app. simpl. by rewrite app_nil_r.
    + rewrite onMessage_forward by done.
      destruct (forward_fields engine port event s) as (_&_&?&_&?&Hw).
      unfold approvalWindows.
      destruct (forward engine port event s) as [c s']. simpl in *.
      by rewrite Hw.
  - intros Hm. rewrite onMessage_forward by done.
    unfold forward, routeContentScriptRPCRequest.
    destruct (engine _ _) as [v|] eqn:E; simpl; repeat split; try done.
    by intros ? [= ->].
  - intros Hm. rewrite onMessage_sign by done. simpl.
    split; [done|]. split; [done|]. split; [done|]. split; [done|].
    unfold windowCreated. simpl.
    rewrite lookup_app_r by done. rewrite Nat.sub_diag. simpl.
    unfold forward, routeContentScriptRPCRequest, internalMethod. simpl.
    rewrite Hm. simpl.
    destruct (engine _ _);
      match goal with |- context [set_pc ?t ?c ?s1] =>
        by destruct (set_pc_fields t c s1) as (_&_&_&_&_&->&_) end.
Qed.

(** *** Responses and connections *)

Lemma windowCreated_posted (t : nat) s task :
  tasks s !! t = Some task →
  posted (windowCreated engine t s) = posted s
  ∨ ∃ b, posted (windowCreated engine t s)
         = posted s ++ [(task_port task,
                         mkPortResponseEvent (id (task_event task)) b)].
Proof.
  intros Ht. unfold windowCreated. rewrite Ht.
  destruct (pc task); eauto.
  - left. match goal with |- context [set_pc t ?c ?s1] =>
      by destruct (set_pc_fields t c s1) as (_&_&_&_&_&_&->) end.
  - destruct (forward_posted engine (task_port task) (task_event task) s) as [H|[b H]];
      destruct (forward engine (task_port task) (task_event task) s) as [c s'];
      destruct (set_pc_fields t c s') as (_&_&_&_&_&_&Hp);
      rewrite Hp; simpl in *; eauto.
Qed.

(** C2: the response to a request is posted on the port the request came
    in on and carries the identifier of the request.  This holds for the
    response produced when the message arrives, when a window has been
    created for the listener, and when a resolver resumes the listener; in
    every run of the service each message posted on a port answers a
    request received on that very port with that very identifier.  In
    particular, when two connections of allowed origins each send a request
    with identifier "1", each gets the result of its own request on its own
    port. *)
Theorem responses_stay_on_their_connection s (tr : list Event) (d : DB) :
  (∀ port event,
     posted (onMessage engine port event s) = posted s
     ∨ ∃ b, posted (onMessage engine port event s)
            = posted s ++ [(port, mkPortResponseEvent (id event) b)])
  ∧ (∀ (t : nat) task, tasks s !! t = Some task →
       (posted (windowCreated engine t s) = posted s
        ∨ ∃ b, posted (windowCreated engine t s)
               = posted s ++ [(task_port task,
                               mkPortResponseEvent (id (task_event task)) b)])
       ∧ (posted (resolve engine t s) = posted s
          ∨ ∃ b, posted (resolve engine t s)
                 = posted s ++ [(task_port task,
                                 mkPortResponseEvent (id (task_event task)) b)]))
  ∧ (∀ m, m ∈ posted (run engine tr (create d)) →
          ∃ event, (m.1, event) ∈ received tr ∧ id event = resp_id m.2)
  ∧ (∀ port1 port2 (rq1 rq2 : RPCRequest) (v1 v2 : Value),
       permissionCheck s (sender_url port1) = true →
       permissionCheck s (sender_url port2) = true →
       method rq1 ≠ "eth_sendTransaction" →
       method rq2 ≠ "eth_sendTransaction" →
       engine (internalMethod (method rq1)) (params rq1) = Some v1 →
       engine (internalMethod (method rq2)) (params rq2) = Some v2 →
       posted (run engine [Message port1 (mkPortRequestEvent "1" rq1);
                           Message port2 (mkPortRequestEvent "1" rq2)] s)
       = posted s ++ [(port1, mkPortResponseEvent "1" (Result v1));
                      (port2, mkPortResponseEvent "1" (Result v2))]).
Proof.
  split; [|split; [|split]];
    [| | |intros port1 port2 rq1 rq2 v1 v2 Hc1 Hc2 Hm1 Hm2 He1 He2].
  - intros port event. apply onMessage_posted.
  - intros t task Ht. split; [by apply windowCreated_posted|].
    destruct (resolve_posted engine t s) as [H|(task' & b & Ht' & H)]; [eauto|].
    right. exists b. congruence.
  - intros m Hin.
    pose proof (correlated_run engine tr (create d)) as Hcor.
    unfold correlated in Hcor. rewrite run_requests in Hcor. simpl in Hcor.
    assert (Forall (answers (received tr)) (posted (run engine tr (create d))))
      as Hall by (apply Hcor; constructor).
    rewrite Forall_forall in Hall. by apply Hall.
  - cbn [run step].
    rewrite (onMessage_forward port1) by done.
    rewrite (onMessage_forward port2).
    + unfold forward, routeContentScriptRPCRequest. simpl.
      rewrite He1. simpl. rewrite He2. simpl.
      by rewrite <- app_assoc.
    + destruct (forward_fields engine port1 (mkPortRequestEvent "1" rq1) s)
        as (_&Ha&_).
      unfold permissionCheck in *. simpl. by rewrite Ha.
    + done.
Qed.

End Claims.

(** ** Scenarios *)



Lemma deny_deletes_record_witness :
  pendingPermissionsRequests waitingService !! url denyDapp = Some 0
  ∧ allowedPages (permissionDenyOrRevoke exampleProvider denyDapp waitingService)
    !! url denyDapp = None.
Proof.
  split; [reflexivity|].
  exact (proj1 (deny_deletes_record exampleProvider waitingService denyDapp 0
                  eq_refl)).
Defined.

(** C6: after the deny decision the origin has no record, hence none in a
    denied state. *)
Lemma deny_leaves_no_record :
  allowedPages (permissionDenyOrRevoke exampleProvider denyDapp waitingService)
  !! dapp = None
  ∧ ¬ ∃ r, allowedPages (permissionDenyOrRevoke exampleProvider denyDapp
                            waitingService) !! dapp = Some r.
Proof.
  split; [reflexivity|]. intros [r H]. vm_compute in H. discriminate H.
Qed.

Lemma grants_are_in_memory_only_witness :
  pendingPermissionsRequests waitingService !! url allowDapp = Some 0
  ∧ allowedPages (permissionGrant exampleProvider allowDapp waitingService)
    !! url allowDapp = Some allowDapp
  ∧ ∀ u, permissionCheck
           (restart (run exampleProvider
                       [Message dappPort (call "b" "eth_requestAccounts")]
                       (permissionGrant exampleProvider allowDapp waitingService)))
           u = false.
Proof.
  split; [reflexivity|].
  pose proof (grants_are_in_memory_only exampleProvider waitingService allowDapp 0
                [Message dappPort (call "b" "eth_requestAccounts")] eq_refl)
    as (H1 & _ & _ & H2).
  split; [exact H1 | exact H2].
Defined.

(** C9: the origin was granted, yet after a restart it is not allowed. *)
Lemma grant_lost_on_restart :
  permissionCheck grantedService dapp = true
  ∧ permissionCheck (restart grantedService) dapp = false
  ∧ allowedPages (restart grantedService) !! dapp = None.
Proof. repeat split; reflexivity. Qed.

Lemma deny_answers_with_empty_result_witness :
  pendingPermissionsRequests waitingService !! url denyDapp = Some 0
  ∧ ∃ task,
      tasks waitingService !! 0 = Some task
      ∧ pc task = AwaitUserAction
      ∧ sender_url (task_port task) = url denyDapp
      ∧ posted (permissionDenyOrRevoke exampleProvider denyDapp waitingService)
        = posted waitingService
          ++ [(task_port task,
               mkPortResponseEvent (id (task_event task)) (Result (VArr [])))]
      ∧ engineCalls (permissionDenyOrRevoke exampleProvider denyDapp waitingService)
        = engineCalls waitingService
      ∧ tasks (permissionDenyOrRevoke exampleProvider denyDapp waitingService) !! 0
        = Some (mkTask (task_port task) (task_event task) Finished).
Proof.
  split; [reflexivity|].
  apply (deny_answers_with_empty_result exampleProvider
           [Message dappPort (call "a" "eth_requestAccounts"); WindowCreated 0]
           tt denyDapp 0).
  reflexivity.
Defined.

(** C5: the response to the denied request is a success envelope. *)
Lemma denied_request_gets_no_error :
  posted (permissionDenyOrRevoke exampleProvider denyDapp waitingService)
  = [(dappPort, mkPortResponseEvent "a" (Result (VArr [])))]
  ∧ Forall (λ m, is_error (resp_body m.2) = false)
      (posted (permissionDenyOrRevoke exampleProvider denyDapp waitingService)).
Proof. split; [reflexivity|]. repeat constructor. Qed.


(** C3: [eth_sendTransaction] from an origin without a record starts no
    approval round, and a denied [eth_requestAccounts] is answered with a
    success envelope. *)
Lemma sendTransaction_not_gated_and_denial_not_an_error :
  windows (onMessage exampleProvider dappPort (call "t" "eth_sendTransaction")
             (create tt)) = []
  ∧ emitted (onMessage exampleProvider dappPort (call "t" "eth_sendTransaction")
               (create tt)) = []
  ∧ posted (onMessage exampleProvider dappPort (call "t" "eth_sendTransaction")
              (create tt))
    = [(dappPort, mkPortResponseEvent "t" (Result (VArr [])))]
  ∧ posted (run exampleProvider
              [Message dappPort (call "a" "eth_requestAccounts");
               WindowCreated 0;
               PermissionDenied denyDapp] (create tt))
    = [(dappPort, mkPortResponseEvent "a" (Result (VArr [])))]
  ∧ is_error (Result (VArr [])) = false.
Proof. repeat split; reflexivity. Qed.

Lemma concurrent_requests_prompt_each_time_witness :
  permissionCheck (create tt) dapp = false
  ∧ length (approvalWindows
              (run exampleProvider
                 [Message dappPort (call "a" "eth_requestAccounts");
                  Message dappPort' (call "b" "eth_requestAccounts")]
                 (create tt)))
    = 0 + 2
  ∧ pendingPermissionsRequests (windowCreated exampleProvider 1 twoRequests)
    = <[dapp := 1]> (pendingPermissionsRequests twoRequests)
  ∧ pendingPermissionsRequests twoRequestsWaiting !! url allowDapp = Some 1
  ∧ pendingPermissionsRequests
      (permissionGrant exampleProvider allowDapp twoRequestsWaiting)
    !! url allowDapp = None
  ∧ tasks (permissionGrant exampleProvider allowDapp twoRequestsWaiting) !! 0
    = tasks twoRequestsWaiting !! 0.
Proof.
  split; [reflexivity|].
  pose proof (concurrent_requests_prompt_each_time exampleProvider (create tt) dapp
                [(dappPort, call "a" "eth_requestAccounts");
                 (dappPort', call "b" "eth_requestAccounts")]
                eq_refl) as H.
  destruct H as ((H1 & _) & H2 & H3).
  - repeat constructor.
  - split; [exact H1|].
    split.
    { apply (H2 twoRequests 1 (mkTask dappPort (call "b" "eth_requestAccounts")
                                 AwaitPermissionWindow)); reflexivity. }
    split; [reflexivity|].
    destruct (H3 twoRequestsWaiting allowDapp 1
                (mkTask dappPort (call "b" "eth_requestAccounts") AwaitUserAction)
                eq_refl eq_refl eq_refl) as (Hg & _ & _ & _ & Hf).
    split; [exact Hg|]. apply (Hf 0). discriminate.
Defined.

(** C1: two requests of one origin before any decision open two approval
    windows; the grant answers the second request only, the first one is
    still blocked. *)
Lemma two_requests_two_prompts :
  approvalWindows twoRequests = ["/permission"; "/permission"]
  ∧ length (approvalWindows twoRequests) ≠ 1
  ∧ length (emitted twoRequests) = 2
  ∧ posted twoRequestsGranted
    = [(dappPort, mkPortResponseEvent "b" (Result accounts))]
  ∧ pc <$> tasks twoRequestsGranted = [AwaitUserAction; Finished].
Proof. repeat split; try reflexivity. discriminate. Qed.

Lemma responses_stay_on_their_connection_witness :
  permissionCheck bothGranted (sender_url dappPort) = true
  ∧ permissionCheck bothGranted (sender_url otherPort) = true
  ∧ posted (run exampleProvider
              [Message dappPort
                 (mkPortRequestEvent "1" (mkRPCRequest "eth_requestAccounts" VNull));
               Message otherPort
                 (mkPortRequestEvent "1" (mkRPCRequest "eth_chainId" VNull))]
              bothGranted)
    = posted bothGranted
      ++ [(dappPort, mkPortResponseEvent "1" (Result accounts));
          (otherPort, mkPortResponseEvent "1" (Result (VStr "0x1")))].
Proof.
  split; [reflexivity|]. split; [reflexivity|].
  pose proof (responses_stay_on_their_connection exampleProvider bothGranted [] tt)
    as (_ & _ & _ & H).
  apply H; try reflexivity; discriminate.
Defined.

Lemma open_method_needs_permission_witness :
  method (request (call "c" "eth_chainId")) ≠ "eth_requestAccounts"
  ∧ permissionCheck (create tt) (sender_url dappPort) = false
  ∧ posted (onMessage exampleProvider dappPort (call "c" "eth_chainId") (create tt))
    = posted (create tt) ++ [(dappPort, mkPortResponseEvent "c" (Result (VArr [])))]
  ∧ permissionCheck grantedService (sender_url dappPort) = true
  ∧ engineCalls (onMessage exampleProvider dappPort (call "c" "eth_chainId")
                   grantedService)
    = engineCalls grantedService ++ [("eth_chainId", VArr [])].
Proof.
  split; [discriminate|]. split; [reflexivity|].
  pose proof (open_method_needs_permission exampleProvider (create tt) dappPort
                (call "c" "eth_chainId")) as H1.
  pose proof (open_method_needs_permission exampleProvider grantedService dappPort
                (call "c" "eth_chainId")) as H2.
  destruct H1 as [H1 _]; [discriminate|].
  destruct H2 as [_ H2]; [discriminate|].
  split; [apply H1; reflexivity|]. split; [reflexivity|].
  apply H2; [reflexivity|discriminate].
Defined.

(** C4: [eth_chainId] from an origin with no record is answered with the
    empty array although the internal provider would answer "0x1"; the
    provider is not called. *)
Lemma chainId_without_record_not_forwarded :
  allowedPages (create tt) !! dapp = None
  ∧ exampleProvider "eth_chainId" (VArr []) = Some (VStr "0x1")
  ∧ posted (onMessage exampleProvider dappPort (call "c" "eth_chainId") (create tt))
    = [(dappPort, mkPortResponseEvent "c" (Result (VArr [])))]
  ∧ posted (onMessage exampleProvider dappPort (call "c" "eth_chainId") (create tt))
    ≠ [(dappPort, mkPortResponseEvent "c" (Result (VStr "0x1")))]
  ∧ engineCalls (onMessage exampleProvider dappPort (call "c" "eth_chainId")
                   (create tt)) = [].
Proof. repeat split; try reflexivity. discriminate. Qed.

Lemma allowed_origin_skips_approval_witness :
  permissionCheck grantedService (sender_url dappPort) = true
  ∧ approvalWindows (onMessage exampleProvider dappPort
                       (call "b" "eth_requestAccounts") grantedService)
    = approvalWindows grantedService
  ∧ windows (onMessage exampleProvider dappPort
               (call "b" "eth_requestAccounts") grantedService)
    = windows grantedService
  ∧ posted (onMessage exampleProvider dappPort
              (call "b" "eth_requestAccounts") grantedService)
    = posted grantedService
      ++ [(dappPort, mkPortResponseEvent "b" (Result accounts))].
Proof.
  split; [reflexivity|].
  pose proof (allowed_origin_skips_approval exampleProvider grantedService dappPort
                (call "b" "eth_requestAccounts") eq_refl)
    as ((_ & Ha & _) & Hf & _).
  split; [exact Ha|].
  destruct Hf as (Hw & _ & Hp); [discriminate|].
  split; [exact Hw|]. apply Hp. reflexivity.
Defined.

(** C7: [eth_sendTransaction] from an allowed origin opens the
    [/signTransaction] window and waits for it; the internal provider has not
    been called and nothing has been posted when the listener suspends. *)
Lemma sendTransaction_from_allowed_origin_opens_window :
  permissionCheck grantedService dapp = true
  ∧ windows (onMessage exampleProvider dappPort (call "t" "eth_sendTransaction")
               grantedService)
    = windows grantedService ++ ["/signTransaction"]
  ∧ windows (onMessage exampleProvider dappPort (call "t" "eth_sendTransaction")
               grantedService)
    ≠ windows grantedService
  ∧ engineCalls (onMessage exampleProvider dappPort (call "t" "eth_sendTransaction")
                   grantedService)
    = engineCalls grantedService
  ∧ posted (onMessage exampleProvider dappPort (call "t" "eth_sendTransaction")
              grantedService)
    = posted grantedService
  ∧ pc <$> tasks (onMessage exampleProvider dappPort (call "t" "eth_sendTransaction")
                    grantedService)
    = [Finished; AwaitSignWindow].
Proof. repeat split; try reflexivity. discriminate. Qed.


(** ** Further properties of the service *)

Section ServiceProperties.

Context {DB : Type}.
Variable engine : string → Value → option Value.

Implicit Types (s : Service DB) (port : Port) (event : PortRequestEvent).

(** *** Calls into the internal provider *)

Lemma forward_calls port event s :
  engineCalls (forward engine port event s).2
  = engineCalls s ++ [(internalMethod (method (request event)),
                       params (request event))].
Proof.
  unfold forward, routeContentScriptRPCRequest. by destruct (engine _ _).
Qed.

Lemma respond_calls port event s :
  engineCalls (respond engine port event s).2 = engineCalls s
  ∨ engineCalls (respond engine port event s).2
    = engineCalls s ++ [(internalMethod (method (request event)),
                         params (request event))].
Proof.
  unfold respond. destruct (permissionCheck s _); [|by left].
  case_bool_decide; [by left|]. right. apply forward_calls.
Qed.

Lemma resolve_calls (t : nat) s :
  engineCalls (resolve engine t s) = engineCalls s
  ∨ ∃ task, tasks s !! t = Some task
            ∧ engineCalls (resolve engine t s)
              = engineCalls s ++ [(internalMethod (method (request (task_event task))),
                                   params (request (task_event task)))].
Proof.
  unfold resolve. destruct (tasks s !! t) as [task|] eqn:Ht; [|by left].
  destruct (pc task); try by left.
  destruct (respond_calls (task_port task) (task_event task) s) as [H|H];
    destruct (respond engine (task_port task) (task_event task) s) as [c s'];
    destruct (set_pc_fields t c s') as (_&_&_&_&_&Hc&_);
    rewrite Hc; simpl in *; eauto.
Qed.

Lemma in_requests (t : nat) s task (l : list (Port * PortRequestEvent)) :
  tasks s !! t = Some task →
  (task_port task, task_event task) ∈ (task_request <$> tasks s) ++ l.
Proof.
  intros Ht. apply elem_of_app. left. apply list_elem_of_fmap.
  exists task. split; [done|]. by eapply list_elem_of_lookup_2.
Qed.

Lemma step_calls e s :
  engineCalls (step engine e s) = engineCalls s
  ∨ ∃ c, engineCallOf ((task_request <$> tasks s) ++ received [e]) c
         ∧ engineCalls (step engine e s) = engineCalls s ++ [c].
Proof.
  destruct e as [port event|t|t|p|p]; simpl.
  - unfold onMessage. destruct (_ && _); simpl; [by left|].
    destruct (respond_calls port event s) as [H|H];
      destruct (respond engine port event s) as [c s']; simpl in *; [by left|].
    right. eexists. split; [|exact H]. exists port, event. split; [|done].
    apply elem_of_app. right. by apply list_elem_of_singleton.
  - unfold windowCreated. destruct (tasks s !! t) as [task|] eqn:Ht; [|by left].
    destruct (pc task); try by left.
    + left. match goal with |- context [set_pc t ?c ?s1] =>
        by destruct (set_pc_fields t c s1) as (_&_&_&_&_&->&_) end.
    + right. pose proof (forward_calls (task_port task) (task_event task) s) as H.
      destruct (forward engine (task_port task) (task_event task) s) as [c s'].
      destruct (set_pc_fields t c s') as (_&_&_&_&_&Hc&_). rewrite Hc.
      simpl in *. eexists. split; [|exact H].
      exists (task_port task), (task_event task). split; [|done].
      by eapply in_requests.
  - left. unfold windowFailed. destruct (tasks s !! t) as [task|]; [|done].
    destruct (pc task); try done;
      by destruct (set_pc_fields t Rejected s) as (_&_&_&_&_&->&_).
  - unfold permissionGrant.
    destruct (pendingPermissionsRequests s !! url p) as [t|]; [|left; by stale p s].
    match goal with |- context [resolve engine t ?s1] =>
      destruct (resolve_calls t s1) as [H|(task & Ht & H)] end; [by left|].
    right. eexists. split; [|exact H].
    exists (task_port task), (task_event task). split; [|done].
    by eapply in_requests.
  - unfold permissionDenyOrRevoke.
    destruct (pendingPermissionsRequests s !! url p) as [t|]; [|left; by stale p s].
    match goal with |- context [resolve engine t ?s1] =>
      destruct (resolve_calls t s1) as [H|(task & Ht & H)] end; [by left|].
    right. eexists. split; [|exact H].
    exists (task_port task), (task_event task). split; [|done].
    by eapply in_requests.
Qed.

Lemma engineCallOf_mono l l' c : engineCallOf l c → engineCallOf (l ++ l') c.
Proof.
  intros (port & event & Hin & ->). exists port, event. split; [|done].
  apply elem_of_app. by left.
Qed.

Lemma calls_sourced_run tr s :
  Forall (engineCallOf (task_request <$> tasks s)) (engineCalls s) →
  Forall (engineCallOf ((task_request <$> tasks s) ++ received tr))
    (engineCalls (run engine tr s)).
Proof.
  revert s. induction tr as [|e tr IH]; intros s Hs.
  - simpl. by rewrite app_nil_r.
  - cbn [run]. change (e :: tr) with ([e] ++ tr).
    rewrite received_app, app_assoc, <- (step_requests engine e s).
    apply IH. rewrite step_requests.
    destruct (step_calls e s) as [->|(c & Hc & ->)].
    + eapply Forall_impl; [exact Hs|]. intros c. apply engineCallOf_mono.
    + apply Forall_app. split; [|by apply Forall_singleton].
      eapply Forall_impl; [exact Hs|]. intros c'. apply engineCallOf_mono.
Qed.

(** X1: in every run of a fresh service each call into the internal provider
    stems from a request that was received, with the params of that request;
    the method is the one of the request, except that [eth_requestAccounts]
    is sent as [eth_accounts].  The internal provider is therefore never
    asked for [eth_requestAccounts]. *)
Theorem engine_calls_stem_from_requests (tr : list Event) (d : DB)
    (c : string * Value) :
  c ∈ engineCalls (run engine tr (create d)) →
  c.1 ≠ "eth_requestAccounts"
  ∧ ∃ port event,
      (port, event) ∈ received tr
      ∧ c.2 = params (request event)
      ∧ (method (request event) = "eth_requestAccounts" → c.1 = "eth_accounts")
      ∧ (method (request event) ≠ "eth_requestAccounts" →
         c.1 = method (request event)).
Proof.
  intros Hin.
  pose proof (calls_sourced_run tr (create d)) as H. simpl in H.
  specialize (H (Forall_nil_2 _)). rewrite Forall_forall in H.
  destruct (H c Hin) as (port & event & Hrec & ->). simpl.
  unfold internalMethod. split.
  - case_bool_decide; [done|]. done.
  - exists port, event. split; [done|]. split; [done|].
    case_bool_decide; split; intros; done.
Qed.

End ServiceProperties.

Lemma engine_calls_stem_from_requests_witness :
  ("eth_accounts", VArr []) ∈ engineCalls grantedService
  ∧ ("eth_accounts", VArr []).1 ≠ "eth_requestAccounts".
Proof.
  split; [apply list_elem_of_here|].
  apply (engine_calls_stem_from_requests exampleProvider
           [Message dappPort (call "a" "eth_requestAccounts");
            WindowCreated 0;
            PermissionGranted allowDapp] tt ("eth_accounts", VArr [])).
  apply list_elem_of_here.
Defined.


(** ** The life of a listener *)

Section ListenerLifecycle.

Context {DB : Type}.
Variable engine : string → Value → option Value.

Implicit Types (s : Service DB) (port : Port) (event : PortRequestEvent).

Lemma resolve_lookup_stable (t0 t : nat) s task :
  tasks s !! t = Some task → pc task ≠ AwaitUserAction →
  tasks (resolve engine t0 s) !! t = Some task.
Proof.
  intros Ht Hpc. destruct (decide (t0 = t)) as [->|Hne].
  - unfold resolve. rewrite Ht. by destruct (pc task).
  - by rewrite resolve_lookup_ne.
Qed.

Lemma windowCreated_lookup_ne (t0 t : nat) s :
  t0 ≠ t → tasks (windowCreated engine t0 s) !! t = tasks s !! t.
Proof.
  intros Hne. unfold windowCreated.
  destruct (tasks s !! t0) as [task0|]; [|done].
  destruct (pc task0); try done.
  - by rewrite set_pc_lookup_ne.
  - destruct (forward_fields engine (task_port task0) (task_event task0) s)
      as (_&_&_&Htk&_).
    destruct (forward engine (task_port task0) (task_event task0) s) as [c s'].
    simpl in Htk. by rewrite set_pc_lookup_ne, Htk.
Qed.

Lemma windowFailed_lookup_ne (t0 t : nat) s :
  t0 ≠ t → tasks (windowFailed t0 s) !! t = tasks s !! t.
Proof.
  intros Hne. unfold windowFailed.
  destruct (tasks s !! t0) as [task0|]; [|done].
  destruct (pc task0); try done; by rewrite set_pc_lookup_ne.
Qed.

Lemma onMessage_lookup (t : nat) port event s task :
  tasks s !! t = Some task →
  tasks (onMessage engine port event s) !! t = Some task.
Proof.
  intros Ht. destruct (onMessage_tasks engine port event s) as [c ->].
  by apply lookup_app_l_Some.
Qed.

Lemma step_terminal e (t : nat) s task :
  tasks s !! t = Some task →
  pc task = Finished ∨ pc task = Rejected →
  tasks (step engine e s) !! t = Some task.
Proof.
  intros Ht Hpc. destruct e as [port event|t0|t0|p|p]; simpl.
  - by apply onMessage_lookup.
  - destruct (decide (t0 = t)) as [->|Hne].
    + unfold windowCreated. rewrite Ht. by destruct Hpc as [-> | ->].
    + by rewrite windowCreated_lookup_ne.
  - destruct (decide (t0 = t)) as [->|Hne].
    + unfold windowFailed. rewrite Ht. by destruct Hpc as [-> | ->].
    + by rewrite windowFailed_lookup_ne.
  - unfold permissionGrant.
    destruct (pendingPermissionsRequests s !! url p) as [t0|]; [|by stale p s].
    apply resolve_lookup_stable; [done|]. by destruct Hpc as [-> | ->].
  - unfold permissionDenyOrRevoke.
    destruct (pendingPermissionsRequests s !! url p) as [t0|]; [|by stale p s].
    apply resolve_lookup_stable; [done|]. by destruct Hpc as [-> | ->].
Qed.

Lemma run_terminal tr (t : nat) s task :
  tasks s !! t = Some task →
  pc task = Finished ∨ pc task = Rejected →
  tasks (run engine tr s) !! t = Some task.
Proof.
  revert s. induction tr as [|e tr IH]; intros s Ht Hpc; [done|].
  cbn [run]. apply IH; [|done]. by apply step_terminal.
Qed.

(** X2: a listener that has posted its response, or whose promise was
    rejected, is never run again: whatever happens afterwards (messages,
    windows, decisions, also decisions for its own origin) it stays as it
    is, and the steps that follow post nothing on its behalf. *)
Theorem finished_listeners_stay_finished (tr : list Event) (t : nat) s task :
  tasks s !! t = Some task →
  pc task = Finished ∨ pc task = Rejected →
  tasks (run engine tr s) !! t = Some task
  ∧ posted (resolve engine t s) = posted s
  ∧ posted (windowCreated engine t s) = posted s.
Proof.
  intros Ht Hpc. split; [by apply run_terminal|].
  unfold resolve, windowCreated. rewrite Ht.
  by destruct Hpc as [-> | ->].
Qed.

(** X8: when the window of an approval round cannot be created, the request
    is lost: no resolver is stored, nothing is posted, and the listener stays
    rejected whatever happens afterwards. *)
Theorem failed_approval_window_loses_request (tr : list Event) (t : nat) s task :
  tasks s !! t = Some task →
  pc task = AwaitPermissionWindow →
  pendingPermissionsRequests (windowFailed t s) = pendingPermissionsRequests s
  ∧ allowedPages (windowFailed t s) = allowedPages s
  ∧ posted (windowFailed t s) = posted s
  ∧ tasks (run engine tr (windowFailed t s)) !! t
    = Some (mkTask (task_port task) (task_event task) Rejected).
Proof.
  intros Ht Hpc.
  assert (windowFailed t s = set_pc t Rejected s) as ->.
  { unfold windowFailed. by rewrite Ht, Hpc. }
  destruct (set_pc_fields t Rejected s) as (_&Ha&Hp&_&_&_&Hpo).
  split; [done|]. split; [done|]. split; [done|].
  apply run_terminal; [|by right]. by apply set_pc_lookup_eq.
Qed.

(** *** A resolver that has been replaced *)

Lemma step_orphan e (t : nat) s task :
  tasks s !! t = Some task → pc task = AwaitUserAction →
  (∀ u, pendingPermissionsRequests s !! u ≠ Some t) →
  tasks (step engine e s) !! t = Some task
  ∧ ∀ u, pendingPermissionsRequests (step engine e s) !! u ≠ Some t.
Proof.
  intros Ht Hpc Hno. destruct e as [port event|t0|t0|p|p]; simpl.
  - split; [by apply onMessage_lookup|]. by rewrite onMessage_pending.
  - unfold windowCreated. destruct (tasks s !! t0) as [task0|] eqn:Ht0; [|done].
    destruct (pc task0) eqn:Hpc0; try done.
    + assert (t0 ≠ t) as Hne by (intros ->; congruence).
      split; [by rewrite set_pc_lookup_ne|].
      match goal with |- context [set_pc t0 ?c ?s1] =>
        destruct (set_pc_fields t0 c s1) as (_&_&->&_) end.
      intros u. simpl. destruct (decide (sender_url (task_port task0) = u)) as [<-|Hu].
      * rewrite lookup_insert_eq. congruence.
      * by rewrite lookup_insert_ne.
    + assert (t0 ≠ t) as Hne by (intros ->; congruence).
      destruct (forward_fields engine (task_port task0) (task_event task0) s)
        as (_&_&Hp&Htk&_).
      destruct (forward engine (task_port task0) (task_event task0) s) as [c s'].
      destruct (set_pc_fields t0 c s') as (_&_&Hp'&_).
      simpl in *. rewrite set_pc_lookup_ne, Htk, Hp', Hp by done. done.
  - unfold windowFailed. destruct (tasks s !! t0) as [task0|] eqn:Ht0; [|done].
    destruct (pc task0) eqn:Hpc0; try done;
      (assert (t0 ≠ t) as Hne by (intros ->; congruence);
       destruct (set_pc_fields t0 Rejected s) as (_&_&->&_);
       by rewrite set_pc_lookup_ne).
  - unfold permissionGrant.
    destruct (pendingPermissionsRequests s !! url p) as [t0|] eqn:Hp; [|by stale p s].
    assert (t0 ≠ t) as Hne by (intros ->; by eapply Hno).
    rewrite resolve_lookup_ne by done. split; [done|].
    match goal with |- context [resolve engine t0 ?s1] =>
      destruct (resolve_fields engine t0 s1) as (_&_&->&_) end.
    intros u H. simpl in H. apply lookup_delete_Some in H as [_ H]. by eapply Hno.
  - unfold permissionDenyOrRevoke.
    destruct (pendingPermissionsRequests s !! url p) as [t0|] eqn:Hp; [|by stale p s].
    assert (t0 ≠ t) as Hne by (intros ->; by eapply Hno).
    rewrite resolve_lookup_ne by done. split; [done|].
    match goal with |- context [resolve engine t0 ?s1] =>
      destruct (resolve_fields engine t0 s1) as (_&_&->&_) end.
    intros u H. simpl in H. apply lookup_delete_Some in H as [_ H]. by eapply Hno.
Qed.

(** X4: a listener that waits for the human while no entry of
    [pendingPermissionsRequests] holds its resolver (a later request of the
    same origin has replaced it) waits for ever: no sequence of messages,
    windows and decisions resumes it, and its resolver is never stored
    again. *)
Theorem replaced_resolver_never_resumes (tr : list Event) (t : nat) s task :
  tasks s !! t = Some task →
  pc task = AwaitUserAction →
  (∀ u, pendingPermissionsRequests s !! u ≠ Some t) →
  tasks (run engine tr s) !! t = Some task
  ∧ ∀ u, pendingPermissionsRequests (run engine tr s) !! u ≠ Some t.
Proof.
  revert s. induction tr as [|e tr IH]; intros s Ht Hpc Hno; [done|].
  cbn [run]. destruct (step_orphan e t s task Ht Hpc Hno) as [Ht' Hno'].
  by apply IH.
Qed.

End ListenerLifecycle.

Lemma finished_listeners_stay_finished_witness :
  tasks grantedService !! 0
  = Some (mkTask dappPort (call "a" "eth_requestAccounts") Finished)
  ∧ tasks (run exampleProvider
             [PermissionGranted allowDapp; WindowCreated 0;
              Message dappPort (call "b" "eth_requestAccounts");
              PermissionDenied denyDapp] grantedService) !! 0
    = Some (mkTask dappPort (call "a" "eth_requestAccounts") Finished).
Proof.
  split; [reflexivity|].
  apply (finished_listeners_stay_finished exampleProvider
           [PermissionGranted allowDapp; WindowCreated 0;
            Message dappPort (call "b" "eth_requestAccounts");
            PermissionDenied denyDapp] 0 grantedService
           (mkTask dappPort (call "a" "eth_requestAccounts") Finished)).
  - reflexivity.
  - left. reflexivity.
Defined.

Lemma failed_approval_window_loses_request_witness :
  tasks twoRequests !! 0
  = Some (mkTask dappPort (call "a" "eth_requestAccounts") AwaitPermissionWindow)
  ∧ tasks (run exampleProvider
             [WindowCreated 1; PermissionGranted allowDapp; WindowCreated 0]
             (windowFailed 0 twoRequests)) !! 0
    = Some (mkTask dappPort (call "a" "eth_requestAccounts") Rejected).
Proof.
  split; [reflexivity|].
  apply (failed_approval_window_loses_request exampleProvider
           [WindowCreated 1; PermissionGranted allowDapp; WindowCreated 0]
           0 twoRequests
           (mkTask dappPort (call "a" "eth_requestAccounts") AwaitPermissionWindow));
    reflexivity.
Defined.

Lemma replaced_resolver_never_resumes_witness :
  tasks twoRequestsWaiting !! 0
  = Some (mkTask dappPort (call "a" "eth_requestAccounts") AwaitUserAction)
  ∧ tasks (run exampleProvider
             [PermissionGranted allowDapp; PermissionDenied denyDapp;
              Message dappPort (call "c" "eth_requestAccounts")]
             twoRequestsWaiting) !! 0
    = Some (mkTask dappPort (call "a" "eth_requestAccounts") AwaitUserAction).
Proof.
  split; [reflexivity|].
  apply (replaced_resolver_never_resumes exampleProvider
           [PermissionGranted allowDapp; PermissionDenied denyDapp;
            Message dappPort (call "c" "eth_requestAccounts")]
           0 twoRequestsWaiting
           (mkTask dappPort (call "a" "eth_requestAccounts") AwaitUserAction)).
  - reflexivity.
  - reflexivity.
  - intros u H.
    destruct (decide (u = dapp)) as [->|Hne].
    + vm_compute in H. discriminate H.
    + revert H. change (<[dapp := 1]> (∅ : gmap string nat) !! u ≠ Some 0).
      rewrite lookup_insert_ne by done. by rewrite lookup_empty.
Defined.


(** ** Counting responses *)

Section ResponseCount.

Context {DB : Type}.
Variable engine : string → Value → option Value.

Implicit Types (s : Service DB) (port : Port) (event : PortRequestEvent).

Lemma filter_length_insert {A} (P : A → Prop) `{!∀ x, Decision (P x)}
    (l : list A) (i : nat) (x y : A) :
  l !! i = Some x →
  length (filter P (<[i:=y]> l)) + (if decide (P x) then 1 else 0)
  = length (filter P l) + (if decide (P y) then 1 else 0).
Proof.
  revert i. induction l as [|a l IH]; intros i Hi; [done|].
  destruct i as [|i]; simpl in *.
  - injection Hi as ->. rewrite !filter_cons.
    destruct (decide (P x)), (decide (P y)); simpl; lia.
  - specialize (IH i Hi). rewrite !filter_cons.
    destruct (decide (P a)); simpl; lia.
Qed.

Lemma finished_set_pc (t : nat) (c : Pc) s task :
  tasks s !! t = Some task →
  finished (set_pc t c s) + (if decide (pc task = Finished) then 1 else 0)
  = finished s + (if decide (c = Finished) then 1 else 0).
Proof.
  intros Ht. unfold finished, set_pc. rewrite Ht. simpl.
  exact (filter_length_insert (λ task, pc task = Finished) (tasks s) t task
           (mkTask (task_port task) (task_event task) c) Ht).
Qed.

Lemma forward_count port event s :
  length (posted (forward engine port event s).2)
  = length (posted s)
    + (if decide ((forward engine port event s).1 = Finished) then 1 else 0).
Proof.
  unfold forward, routeContentScriptRPCRequest.
  destruct (engine _ _); simpl; rewrite ?length_app; simpl; lia.
Qed.

Lemma respond_count port event s :
  length (posted (respond engine port event s).2)
  = length (posted s)
    + (if decide ((respond engine port event s).1 = Finished) then 1 else 0).
Proof.
  unfold respond. destruct (permissionCheck s _).
  - case_bool_decide; [simpl; lia|]. apply forward_count.
  - simpl. rewrite length_app. simpl. lia.
Qed.

Lemma filter_length_snoc (l : list Task) (task : Task) :
  length (filter (λ task, pc task = Finished) (l ++ [task]))
  = length (filter (λ task, pc task = Finished) l)
    + (if decide (pc task = Finished) then 1 else 0).
Proof.
  rewrite filter_app, length_app. f_equal.
  rewrite filter_cons, filter_nil. by destruct (decide (pc task = Finished)).
Qed.

Lemma finished_resolve (t : nat) s :
  length (posted s) = finished s →
  length (posted (resolve engine t s)) = finished (resolve engine t s).
Proof.
  intros Hinv. unfold resolve.
  destruct (tasks s !! t) as [task|] eqn:Ht; [|done].
  destruct (pc task) eqn:Hpc; try done.
  pose proof (respond_count (task_port task) (task_event task) s) as Hc.
  destruct (respond_fields engine (task_port task) (task_event task) s)
    as (_&_&_&Htk&_).
  destruct (respond engine (task_port task) (task_event task) s) as [c s'].
  simpl in *.
  assert (tasks s' !! t = Some task) as Ht' by (by rewrite Htk).
  pose proof (finished_set_pc t c s' task Ht') as Hf.
  destruct (set_pc_fields t c s') as (_&_&_&_&_&_&->).
  assert (finished s' = finished s) as Hfs by (unfold finished; by rewrite Htk).
  rewrite Hpc in Hf. destruct (decide (AwaitUserAction = Finished)); [done|].
  lia.
Qed.

Lemma finished_step e s :
  length (posted s) = finished s →
  length (posted (step engine e s)) = finished (step engine e s).
Proof.
  intros Hinv. destruct e as [port event|t|t|p|p]; simpl.
  - unfold onMessage. destruct (_ && _); simpl.
    + unfold finished in *. cbn [tasks set_tasks posted permissionRequest
        showDappConnectWindow emit].
      rewrite filter_length_snoc. cbn [pc].
      destruct (decide (AwaitPermissionWindow = Finished)); [done|]. lia.
    + pose proof (respond_count port event s) as Hc.
      destruct (respond_fields engine port event s) as (_&_&_&Htk&_).
      destruct (respond engine port event s) as [c s']. simpl in Hc, Htk.
      unfold finished in *. cbn [tasks set_tasks posted].
      rewrite Htk, filter_length_snoc, Hc. cbn [pc]. lia.
  - unfold windowCreated. destruct (tasks s !! t) as [task|] eqn:Ht; [|done].
    destruct (pc task) eqn:Hpc; try done.
    + match goal with |- context [set_pc t ?c ?s1] =>
        pose proof (finished_set_pc t c s1 task Ht) as Hf;
        destruct (set_pc_fields t c s1) as (_&_&_&_&_&_&->) end.
      rewrite Hpc in Hf. simpl in *.
      destruct (decide (AwaitPermissionWindow = Finished)); [done|].
      destruct (decide (AwaitUserAction = Finished)); [done|].
      unfold finished in *. simpl in *. lia.
    + pose proof (forward_count (task_port task) (task_event task) s) as Hc.
      destruct (forward_fields engine (task_port task) (task_event task) s)
        as (_&_&_&Htk&_).
      destruct (forward engine (task_port task) (task_event task) s) as [c s'].
      simpl in *.
      assert (tasks s' !! t = Some task) as Ht' by (by rewrite Htk).
      pose proof (finished_set_pc t c s' task Ht') as Hf.
      destruct (set_pc_fields t c s') as (_&_&_&_&_&_&->).
      assert (finished s' = finished s) as Hfs by (unfold finished; by rewrite Htk).
      rewrite Hpc in Hf. destruct (decide (AwaitSignWindow = Finished)); [done|].
      lia.
  - unfold windowFailed. destruct (tasks s !! t) as [task|] eqn:Ht; [|done].
    destruct (pc task) eqn:Hpc; try done;
      (pose proof (finished_set_pc t Rejected s task Ht) as Hf;
       destruct (set_pc_fields t Rejected s) as (_&_&_&_&_&_&->);
       rewrite Hpc in Hf; simpl in Hf;
       repeat (match type of Hf with context [decide ?P] =>
                 destruct (decide P); [done|] end);
       lia).
  - unfold permissionGrant.
    destruct (pendingPermissionsRequests s !! url p) as [t|];
      [|unfold finished; by stale p s].
    by apply finished_resolve.
  - unfold permissionDenyOrRevoke.
    destruct (pendingPermissionsRequests s !! url p) as [t|];
      [|unfold finished; by stale p s].
    by apply finished_resolve.
Qed.

(** X3: in every run of a fresh service the number of messages posted on
    ports is the number of listeners that have finished: a listener posts one
    response when it finishes and none before; a listener that is still
    waiting or was rejected has posted nothing. *)
Theorem one_response_per_finished_listener (tr : list Event) (d : DB) :
  length (posted (run engine tr (create d))) = finished (run engine tr (create d))
  ∧ (finished (run engine tr (create d)) ≤ length (received tr))%nat.
Proof.
  assert (∀ s, length (posted s) = finished s →
               length (posted (run engine tr s)) = finished (run engine tr s)) as H.
  { induction tr as [|e tr' IH]; intros s Hs; [done|].
    cbn [run]. apply IH. by apply finished_step. }
  split; [by apply H|].
  unfold finished. etrans; [apply length_filter|].
  rewrite <- (length_fmap task_request), run_requests. simpl. done.
Qed.

End ResponseCount.


(** ** Where permissions come from *)

Section Permissions.

Context {DB : Type}.
Variable engine : string → Value → option Value.

Implicit Types (s : Service DB) (port : Port) (event : PortRequestEvent).

Lemma windowCreated_allowedPages (t : nat) s :
  allowedPages (windowCreated engine t s) = allowedPages s.
Proof.
  unfold windowCreated. destruct (tasks s !! t) as [task|]; [|done].
  destruct (pc task); try done.
  - match goal with |- context [set_pc t ?c ?s1] =>
      by destruct (set_pc_fields t c s1) as (_&->&_) end.
  - destruct (forward_fields engine (task_port task) (task_event task) s)
      as (_&Ha&_).
    destruct (forward engine (task_port task) (task_event task) s) as [c s'].
    by destruct (set_pc_fields t c s') as (_&->&_).
Qed.

Lemma onMessage_allowedPages port event s :
  allowedPages (onMessage engine port event s) = allowedPages s.
Proof.
  unfold onMessage. destruct (_ && _); simpl; [done|].
  destruct (respond_fields engine port event s) as (_&Ha&_).
  by destruct (respond engine port event s).
Qed.

Lemma step_allowedPages e s :
  allowedPages (step engine e s)
  = match e with
    | PermissionGranted p =>
        match pendingPermissionsRequests s !! url p with
        | Some _ => <[url p := p]> (allowedPages s)
        | None => if inherited (url p) then <[url p := p]> (allowedPages s)
                  else allowedPages s
        end
    | PermissionDenied p =>
        match pendingPermissionsRequests s !! url p with
        | Some _ => delete (url p) (allowedPages s)
        | None => if inherited (url p) && negb (bool_decide (url p = "__proto__"))
                  then delete (url p) (allowedPages s) else allowedPages s
        end
    | _ => allowedPages s
    end.
Proof.
  destruct e as [port event|t|t|p|p]; simpl.
  - apply onMessage_allowedPages.
  - apply windowCreated_allowedPages.
  - unfold windowFailed. destruct (tasks s !! t) as [task|]; [|done].
    destruct (pc task); try done;
      by destruct (set_pc_fields t Rejected s) as (_&->&_).
  - unfold permissionGrant.
    destruct (pendingPermissionsRequests s !! url p) as [t|];
      [|apply stale_grant_allowedPages].
    match goal with |- context [resolve engine t ?s1] =>
      by destruct (resolve_fields engine t s1) as (_&->&_) end.
  - unfold permissionDenyOrRevoke.
    destruct (pendingPermissionsRequests s !! url p) as [t|];
      [|apply stale_deny_allowedPages].
    match goal with |- context [resolve engine t ?s1] =>
      by destruct (resolve_fields engine t s1) as (_&->&_) end.
Qed.

Lemma step_record_origin e s (u : string) (p : PermissionRequest) :
  allowedPages (step engine e s) !! u = Some p →
  allowedPages s !! u = Some p
  ∨ (e = PermissionGranted p ∧ url p = u
     ∧ (is_Some (pendingPermissionsRequests s !! u) ∨ inherited u = true)).
Proof.
  rewrite step_allowedPages. destruct e as [port event|t|t|q|q]; auto.
  - destruct (pendingPermissionsRequests s !! url q) as [t|] eqn:Hq.
    + destruct (decide (url q = u)) as [<-|Hne].
      * rewrite lookup_insert_eq. intros [= ->]. right. rewrite Hq. eauto.
      * rewrite lookup_insert_ne by done. auto.
    + destruct (inherited (url q)) eqn:Hi; auto.
      destruct (decide (url q = u)) as [<-|Hne].
      * rewrite lookup_insert_eq. intros [= ->]. right. eauto.
      * rewrite lookup_insert_ne by done. auto.
  - destruct (pendingPermissionsRequests s !! url q) as [t|].
    + intros H. apply lookup_delete_Some in H as [_ H]. auto.
    + destruct (inherited (url q) && negb (bool_decide (url q = "__proto__")));
        auto.
      intros H. apply lookup_delete_Some in H as [_ H]. auto.
Qed.

Lemma run_record_origin tr s (u : string) (p : PermissionRequest) :
  allowedPages (run engine tr s) !! u = Some p →
  allowedPages s !! u = Some p ∨ (PermissionGranted p ∈ tr ∧ url p = u).
Proof.
  revert s. induction tr as [|e tr IH]; intros s H; [by left|].
  cbn [run] in H. destruct (IH _ H) as [H'|[Hin Hu]].
  - destruct (step_record_origin e s u p H') as [?|(-> & ? & _)]; [by left|].
    right. split; [apply list_elem_of_here|done].
  - right. split; [by apply list_elem_of_further|done].
Qed.

(** X5: permission comes from the human only.  In every run of a fresh
    service an origin passes [permissionCheck] only if a grant decision for
    that very url with state "allow" is part of the run; every stored record
    is stored under its own url; and events that are not decisions
    (messages, windows) leave the table of records as it is, whatever the
    page sends. *)
Theorem permission_needs_a_grant (tr : list Event) (d : DB) (u : string) s :
  (permissionCheck (run engine tr (create d)) u = true →
   ∃ p, PermissionGranted p ∈ tr ∧ url p = u ∧ state p = "allow")
  ∧ (∀ p, allowedPages (run engine tr (create d)) !! u = Some p → url p = u)
  ∧ (Forall (λ e, ¬ is_decision e) tr →
     allowedPages (run engine tr s) = allowedPages s).
Proof.
  split; [|split].
  - unfold permissionCheck.
    destruct (allowedPages (run engine tr (create d)) !! u) as [p|] eqn:Hp; [|done].
    intros Hst. apply bool_decide_eq_true in Hst.
    destruct (run_record_origin tr (create d) u p Hp) as [H|[Hin Hu]].
    + simpl in H. by rewrite lookup_empty in H.
    + eauto.
  - intros p Hp.
    destruct (run_record_origin tr (create d) u p Hp) as [H|[Hin Hu]]; [|done].
    simpl in H. by rewrite lookup_empty in H.
  - intros Hall. revert s. induction Hall as [|e tr' He _ IH]; intros s; [done|].
    cbn [run]. rewrite IH, step_allowedPages.
    destruct e; simpl in He; tauto.
Qed.

(** *** A decision concerns one origin *)

Lemma resolve_posted_origin (t : nat) s (u : string)
    (m : Port * PortResponseEvent) :
  (∀ task, tasks s !! t = Some task → sender_url (task_port task) = u) →
  m ∈ posted (resolve engine t s) → m ∈ posted s ∨ sender_url m.1 = u.
Proof.
  intros Hu Hm.
  destruct (resolve_posted engine t s) as [H|(task & b & Ht & H)];
    rewrite H in Hm; [by left|].
  apply elem_of_app in Hm as [Hm|Hm]; [by left|].
  apply list_elem_of_singleton in Hm as ->. right. simpl. by apply Hu.
Qed.

(** X6: a decision for one url does not touch another.  In every state a
    fresh service can reach, a grant or a deny for [p] leaves the outcome of
    [permissionCheck] and the stored resolver of every other url as they are,
    leaves the record of every other url as it is (for [p] other than
    [__proto__], whose assignment replaces the prototype of the table),
    leaves every listener of a port with another sender url as it is, and
    posts messages only on ports whose sender url is the url of [p]. *)
Theorem decision_concerns_one_origin (tr : list Event) (d : DB)
    (p : PermissionRequest) (u : string) :
  u ≠ url p →
  let s := run engine tr (create d) in
  (permissionCheck (permissionGrant engine p s) u = permissionCheck s u
   ∧ permissionCheck (permissionDenyOrRevoke engine p s) u = permissionCheck s u
   ∧ pendingPermissionsRequests (permissionGrant engine p s) !! u
     = pendingPermissionsRequests s !! u
   ∧ pendingPermissionsRequests (permissionDenyOrRevoke engine p s) !! u
     = pendingPermissionsRequests s !! u)
  ∧ (url p ≠ "__proto__" →
     allowedPages (permissionGrant engine p s) !! u = allowedPages s !! u
     ∧ allowedPages (permissionDenyOrRevoke engine p s) !! u = allowedPages s !! u)
  ∧ (∀ (t : nat) task, tasks s !! t = Some task →
       sender_url (task_port task) ≠ url p →
       tasks (permissionGrant engine p s) !! t = Some task
       ∧ tasks (permissionDenyOrRevoke engine p s) !! t = Some task)
  ∧ (∀ m, m ∈ posted (permissionGrant engine p s)
          ∨ m ∈ posted (permissionDenyOrRevoke engine p s) →
          m ∈ posted s ∨ sender_url m.1 = url p).
Proof.
  intros Hne s.
  pose proof (pending_wf_run engine tr (create d) (pending_wf_create d)) as Hwf.
  fold s in Hwf.
  assert (allowedPages (permissionGrant engine p s) !! u = allowedPages s !! u
          ∧ allowedPages (permissionDenyOrRevoke engine p s) !! u
            = allowedPages s !! u) as [Hag Had].
  { pose proof (step_allowedPages (PermissionGranted p) s) as Hg.
    pose proof (step_allowedPages (PermissionDenied p) s) as Hd.
    simpl in Hg, Hd. rewrite Hg, Hd.
    destruct (pendingPermissionsRequests s !! url p).
    - by rewrite lookup_insert_ne, lookup_delete_ne.
    - destruct (inherited (url p)); simpl; [|done].
      rewrite lookup_insert_ne by done.
      destruct (negb _); [by rewrite lookup_delete_ne|done]. }
  split; [|split; [done|]].
  { unfold permissionCheck. rewrite Hag, Had. split; [done|]. split; [done|].
    unfold permissionGrant, permissionDenyOrRevoke.
    destruct (pendingPermissionsRequests s !! url p) as [t0|] eqn:Hp;
      [|split; by stale p s].
    repeat match goal with |- context [resolve engine t0 ?s1] =>
      destruct (resolve_fields engine t0 s1) as (_&_&->&_) end.
    simpl. by rewrite !lookup_delete_ne. }
  unfold permissionGrant, permissionDenyOrRevoke.
  destruct (pendingPermissionsRequests s !! url p) as [t0|] eqn:Hp.
  - destruct (Hwf _ _ Hp) as (task0 & Ht0 & Hpc0 & Hurl0). split.
    + intros t task Ht Hu.
      assert (t0 ≠ t) as Hneq by (intros ->; congruence).
      by rewrite !resolve_lookup_ne.
    + intros m [Hm|Hm];
        (eapply resolve_posted_origin in Hm; [exact Hm|]);
        simpl; intros task Ht; congruence.
  - split.
    + intros t task Ht Hu. split; by stale p s.
    + intros m [Hm|Hm]; left; revert Hm; by stale p s.
Qed.

End Permissions.

Lemma permission_needs_a_grant_witness :
  permissionCheck grantedService dapp = true
  ∧ ∃ p, PermissionGranted p
         ∈ [Message dappPort (call "a" "eth_requestAccounts");
            WindowCreated 0;
            PermissionGranted allowDapp]
         ∧ url p = dapp ∧ state p = "allow".
Proof.
  split; [reflexivity|].
  apply (permission_needs_a_grant exampleProvider
           [Message dappPort (call "a" "eth_requestAccounts");
            WindowCreated 0;
            PermissionGranted allowDapp] tt dapp (create tt)).
  reflexivity.
Defined.

Lemma decision_concerns_one_origin_witness :
  other ≠ url denyDapp
  ∧ allowedPages twoOrigins !! other = Some allowOther
  ∧ pendingPermissionsRequests twoOrigins !! other = Some 1
  ∧ pendingPermissionsRequests twoOrigins !! dapp = Some 2
  ∧ permissionCheck (permissionDenyOrRevoke exampleProvider denyDapp twoOrigins)
      other = true
  ∧ allowedPages (permissionDenyOrRevoke exampleProvider denyDapp twoOrigins)
    !! other = Some allowOther
  ∧ pendingPermissionsRequests
      (permissionDenyOrRevoke exampleProvider denyDapp twoOrigins) !! other
    = Some 1
  ∧ tasks (permissionDenyOrRevoke exampleProvider denyDapp twoOrigins) !! 1
    = Some (mkTask otherPort (call "y" "eth_requestAccounts") AwaitUserAction).
Proof.
  split; [discriminate|]. do 3 (split; [reflexivity|]).
  assert (other ≠ url denyDapp) as Hne by discriminate.
  pose proof (decision_concerns_one_origin exampleProvider
                [Message otherPort (call "x" "eth_requestAccounts");
                 Message otherPort (call "y" "eth_requestAccounts");
                 WindowCreated 0;
                 PermissionGranted allowOther;
                 WindowCreated 1;
                 Message dappPort (call "a" "eth_requestAccounts");
                 WindowCreated 2] tt denyDapp other Hne) as H.
  destruct H as ((_ & Hc & _ & Hq) & Ha & Ht & _).
  split; [exact Hc|]. split; [apply Ha; discriminate|]. split; [exact Hq|].
  apply (Ht 1 (mkTask otherPort (call "y" "eth_requestAccounts") AwaitUserAction));
    [reflexivity|discriminate].
Defined.


(** ** What the approval UI is asked *)

Section ApprovalRequests.

Context {DB : Type}.
Variable engine : string → Value → option Value.

Implicit Types (s : Service DB) (port : Port) (event : PortRequestEvent).

Lemma respond_approvalWindows port event s :
  approvalWindows (respond engine port event s).2 = approvalWindows s.
Proof.
  unfold respond. destruct (permissionCheck s _); [|done].
  case_bool_decide.
  - unfold approvalWindows. simpl. rewrite filter_app. simpl. by rewrite app_nil_r.
  - destruct (forward_fields engine port event s) as (_&_&_&_&_&Hw).
    unfold approvalWindows. by rewrite Hw.
Qed.

Lemma resolve_approvalWindows (t : nat) s :
  approvalWindows (resolve engine t s) = approvalWindows s.
Proof.
  unfold resolve. destruct (tasks s !! t) as [task|]; [|done].
  destruct (pc task); try done.
  pose proof (respond_approvalWindows (task_port task) (task_event task) s) as H.
  destruct (respond engine (task_port task) (task_event task) s) as [c s'].
  destruct (set_pc_fields t c s') as (_&_&_&_&Hw&_).
  unfold approvalWindows in *. by rewrite Hw.
Qed.

Lemma step_approval e s :
  (emitted (step engine e s) = emitted s
   ∧ approvalWindows (step engine e s) = approvalWindows s)
  ∨ ∃ q, approvalRequestOf (received [e]) q
         ∧ emitted (step engine e s) = emitted s ++ [q]
         ∧ approvalWindows (step engine e s) = approvalWindows s ++ ["/permission"].
Proof.
  destruct e as [port event|t|t|p|p]; simpl.
  - unfold onMessage.
    destruct (bool_decide (method (request event) = "eth_requestAccounts")) eqn:Hm;
      simpl.
    + destruct (permissionCheck s (sender_url port)); simpl.
      * left. destruct (respond_fields engine port event s) as (_&_&_&_&He).
        pose proof (respond_approvalWindows port event s) as Hw.
        by destruct (respond engine port event s).
      * right. eexists. split; [|split; [done|]].
        -- exists port, event. split; [by apply list_elem_of_singleton|].
           split; [by apply bool_decide_eq_true in Hm|done].
        -- unfold approvalWindows. simpl. by rewrite filter_app.
    + left. destruct (respond_fields engine port event s) as (_&_&_&_&He).
      pose proof (respond_approvalWindows port event s) as Hw.
      by destruct (respond engine port event s).
  - left. unfold windowCreated. destruct (tasks s !! t) as [task|]; [|done].
    destruct (pc task); try done.
    + match goal with |- context [set_pc t ?c ?s1] =>
        destruct (set_pc_fields t c s1) as (_&_&_&He&Hw&_) end.
      unfold approvalWindows. by rewrite He, Hw.
    + destruct (forward_fields engine (task_port task) (task_event task) s)
        as (_&_&_&_&He&Hw).
      destruct (forward engine (task_port task) (task_event task) s) as [c s'].
      destruct (set_pc_fields t c s') as (_&_&_&He'&Hw'&_).
      unfold approvalWindows. simpl in *. by rewrite He', Hw', He, Hw.
  - left. unfold windowFailed. destruct (tasks s !! t) as [task|]; [|done].
    destruct (pc task); try done;
      (destruct (set_pc_fields t Rejected s) as (_&_&_&He&Hw&_);
       unfold approvalWindows; by rewrite He, Hw).
  - left. unfold permissionGrant.
    destruct (pendingPermissionsRequests s !! url p) as [t|];
      [|unfold approvalWindows; by stale p s].
    rewrite resolve_approvalWindows.
    match goal with |- context [resolve engine t ?s1] =>
      by destruct (resolve_fields engine t s1) as (_&_&_&->) end.
  - left. unfold permissionDenyOrRevoke.
    destruct (pendingPermissionsRequests s !! url p) as [t|];
      [|unfold approvalWindows; by stale p s].
    rewrite resolve_approvalWindows.
    match goal with |- context [resolve engine t ?s1] =>
      by destruct (resolve_fields engine t s1) as (_&_&_&->) end.
Qed.

Lemma approvalRequestOf_app_l l l' q :
  approvalRequestOf l' q → approvalRequestOf (l ++ l') q.
Proof.
  intros (port & event & Hin & H). exists port, event. split; [|done].
  apply elem_of_app. by right.
Qed.

Lemma approvalRequestOf_app_r l l' q :
  approvalRequestOf l q → approvalRequestOf (l ++ l') q.
Proof.
  intros (port & event & Hin & H). exists port, event. split; [|done].
  apply elem_of_app. by left.
Qed.

Lemma run_approval tr s :
  ∃ l, emitted (run engine tr s) = emitted s ++ l
       ∧ length (approvalWindows (run engine tr s))
         = length (approvalWindows s) + length l
       ∧ Forall (approvalRequestOf (received tr)) l.
Proof.
  revert s. induction tr as [|e tr IH]; intros s.
  - exists []. simpl. rewrite app_nil_r. split; [done|]. split; [lia|done].
  - cbn [run]. destruct (IH (step engine e s)) as (l & He & Hw & Hall).
    change (e :: tr) with ([e] ++ tr). rewrite received_app.
    destruct (step_approval e s) as [[He' Hw']|(q & Hq & He' & Hw')].
    + exists l. rewrite He, Hw, He', Hw'. split; [done|]. split; [done|].
      eapply Forall_impl; [exact Hall|]. intros q. apply approvalRequestOf_app_l.
    + exists (q :: l). rewrite He, Hw, He', Hw', <- app_assoc, length_app.
      split; [done|]. split; [simpl; lia|].
      constructor; [by apply approvalRequestOf_app_r|].
      eapply Forall_impl; [exact Hall|]. intros q'. apply approvalRequestOf_app_l.
Qed.

(** X7: in every run of a fresh service the permission requests handed to
    the approval UI and the calls of [showDappConnectWindow("/permission")]
    are equally many, whether or not the windows asked for come to exist;
    each emitted request is in state "request" and carries the sender url and
    the icon (or the empty string) of the port of a received
    [eth_requestAccounts] message, never anything taken from the message. *)
Theorem approval_requests_come_from_ports (tr : list Event) (d : DB) :
  length (emitted (run engine tr (create d)))
  = length (approvalWindows (run engine tr (create d)))
  ∧ Forall (approvalRequestOf (received tr)) (emitted (run engine tr (create d)))
  ∧ Forall (λ q, state q = "request") (emitted (run engine tr (create d))).
Proof.
  destruct (run_approval tr (create d)) as (l & He & Hw & Hall).
  simpl in He, Hw. rewrite He, Hw. split; [done|]. split; [done|].
  eapply Forall_impl; [exact Hall|].
  by intros q (port & event & _ & _ & ->).
Qed.

End ApprovalRequests.


(** ** Connections and windows *)

Section Connections.

Context {DB : Type}.
Variable engine : string → Value → option Value.

(** X9: the origin of a listener is what the transport reports.  A listener
    is attached only to a port with the external port name whose sender has a
    non-empty url; a port with another name, without sender, without url or
    with the empty url gets none.  The permission request that the attached
    listener emits carries that sender url and the icon of the sender's tab,
    or the empty string when the tab or its icon is missing. *)
Theorem origin_is_taken_from_the_transport (EXTERNAL_PORT_NAME : string)
    (raw : RuntimePort) (port : Port) (event : PortRequestEvent)
    (s : Service DB) :
  (onConnect EXTERNAL_PORT_NAME raw = None
   ↔ rp_name raw ≠ EXTERNAL_PORT_NAME
     ∨ rp_sender raw = None
     ∨ ∃ sender, rp_sender raw = Some sender
                 ∧ (ms_url sender = None ∨ ms_url sender = Some ""))
  ∧ (onConnect EXTERNAL_PORT_NAME raw = Some port →
     rp_name raw = EXTERNAL_PORT_NAME
     ∧ handle port = rp_handle raw
     ∧ sender_url port ≠ ""
     ∧ ∃ sender,
         rp_sender raw = Some sender
         ∧ ms_url sender = Some (sender_url port)
         ∧ (method (request event) = "eth_requestAccounts" →
            permissionCheck s (sender_url port) = false →
            emitted (onMessage engine port event s)
            = emitted s
              ++ [mkPermissionRequest (sender_url port)
                    (default "" (ms_tab sender ≫= tab_favIconUrl)) "request"])).
Proof.
  unfold onConnect. split.
  - case_bool_decide as Hn; [|split; [auto|done]].
    destruct (rp_sender raw) as [sender|]; [|split; [auto|done]].
    destruct (ms_url sender) as [u|] eqn:Hu.
    + case_bool_decide as He.
      * subst u. split; [|done]. intros _. right. right. eauto.
      * split; [done|]. intros [?|[?|(sender' & [= <-] & [H|H])]];
          [done|done|congruence|]. rewrite Hu in H. congruence.
    + split; [|done]. intros _. right. right. eauto.
  - case_bool_decide as Hn; [|done].
    destruct (rp_sender raw) as [sender|]; [|done].
    destruct (ms_url sender) as [u|] eqn:Hu; [|done].
    case_bool_decide as He; [done|]. intros [= <-]. simpl.
    split; [done|]. split; [done|]. split; [done|].
    exists sender. split; [done|]. split; [done|].
    intros Hm Hc. unfold onMessage. simpl. rewrite Hc.
    rewrite bool_decide_eq_true_2 by done. done.
Qed.

End Connections.

Lemma origin_is_taken_from_the_transport_witness :
  onConnect "tally-external"
    (mkRuntimePort 0 "tally-external"
       (Some (mkMessageSender (Some dapp) (Some (mkTab None)))))
  = Some dappPort
  ∧ emitted (onMessage exampleProvider dappPort (call "a" "eth_requestAccounts")
               (create tt))
    = [mkPermissionRequest dapp "" "request"].
Proof.
  split; [reflexivity|].
  pose proof (origin_is_taken_from_the_transport exampleProvider "tally-external"
                (mkRuntimePort 0 "tally-external"
                   (Some (mkMessageSender (Some dapp) (Some (mkTab None)))))
                dappPort (call "a" "eth_requestAccounts") (create tt)) as [_ H].
  destruct (H eq_refl) as (_ & _ & _ & sender & Hs & _ & He).
  injection Hs as <-. apply He; reflexivity.
Defined.

(** X10: the window that [showDappConnectWindow] asks for is 400 wide and 600
    high, has the top of the current window, and ends where the current
    window ends on the right, with 0 and 1920 standing in for a missing left
    or width.  Its left edge is inside the current window exactly when that
    window is at least 400 wide; nothing clamps it otherwise. *)
Theorem popup_is_aligned_to_the_right_edge (getURL : string → string)
    (current : WindowInfo) (page : string) :
  let cd := showDappConnectWindow_createData getURL current page in
  (cd_left cd + cd_width cd
   = default 0 (win_left current) + default 1920 (win_width current))%Z
  ∧ cd_width cd = 400%Z ∧ cd_height cd = 600%Z
  ∧ cd_top cd = win_top current
  ∧ ((default 0 (win_left current) ≤ cd_left cd)%Z
     ↔ (400 ≤ default 1920 (win_width current))%Z)
  ∧ (win_left current = None → win_width current = None → cd_left cd = 1520%Z)
  ∧ cd_url cd = getURL "popup.html" +:+ "?page=" +:+ page.
Proof.
  unfold showDappConnectWindow_createData, popupWidth, popupHeight. simpl.
  split; [lia|]. split; [done|]. split; [done|]. split; [done|].
  split; [lia|]. split; [|done]. by intros -> ->.
Qed.

Lemma popup_is_aligned_to_the_right_edge_witness :
  win_left (mkWindowInfo None (Some 20%Z) None) = None
  ∧ win_width (mkWindowInfo None (Some 20%Z) None) = None
  ∧ cd_left (showDappConnectWindow_createData (λ f, "chrome-extension://id/" +:+ f)
               (mkWindowInfo None (Some 20%Z) None) "/permission")
    = 1520%Z.
Proof.
  split; [reflexivity|]. split; [reflexivity|].
  pose proof (popup_is_aligned_to_the_right_edge
                (λ f, "chrome-extension://id/" +:+ f)
                (mkWindowInfo None (Some 20%Z) None) "/permission")
    as (_ & _ & _ & _ & _ & H & _).
  apply H; reflexivity.
Defined.


(** ** What the logger prints *)

Lemma splitLines_line (l s : list N) :
  10%N ∉ l → splitLines (l ++ 10%N :: s) = l :: splitLines s.
Proof.
  induction l as [|c l IH]; intros Hl; simpl.
  - done.
  - apply not_elem_of_cons in Hl as [Hc Hl].
    destruct (N.eqb_spec c 10) as [->|_]; [done|]. by rewrite IH.
Qed.

Lemma splitLines_no_line_feed (s : list N) :
  Forall (λ l, 10%N ∉ l) (splitLines s).
Proof.
  induction s as [|c s IH]; simpl.
  - repeat constructor. apply not_elem_of_nil.
  - destruct (N.eqb_spec c 10) as [->|Hc].
    + constructor; [apply not_elem_of_nil|done].
    + destruct (splitLines s) as [|l ls].
      { repeat constructor. intros Hin. apply list_elem_of_singleton in Hin.
        congruence. }
      apply Forall_cons in IH as [Hl Hls]. constructor; [|done].
      apply not_elem_of_cons. split; [congruence|done].
Qed.

Lemma keepLine_true (l : list N) :
  keepLine l = true → trim l ≠ [] ∧ trim l ≠ codeUnits "Error".
Proof.
  unfold keepLine. intros H. apply negb_true_iff in H.
  apply orb_false_iff in H as [H1 H2].
  apply bool_decide_eq_false in H1. apply bool_decide_eq_false in H2. done.
Qed.

Lemma splitLines_nonempty (s : list N) : splitLines s ≠ [].
Proof.
  destruct s as [|c s]; simpl; [done|].
  destruct (c =? 10)%N; [done|]. by destruct (splitLines s).
Qed.

Lemma splitLines_app (a b : list N) :
  splitLines (a ++ 10%N :: b) = splitLines a ++ splitLines b.
Proof.
  induction a as [|c a IH]; simpl; [done|].
  destruct (c =? 10)%N; [by rewrite IH|].
  rewrite IH. pose proof (splitLines_nonempty a) as Hne.
  by destruct (splitLines a).
Qed.

Lemma splitLines_one (l : list N) : 10%N ∉ l → splitLines l = [l].
Proof.
  induction l as [|c l IH]; intros Hl; simpl; [done|].
  apply not_elem_of_cons in Hl as [Hc Hl].
  destruct (N.eqb_spec c 10) as [->|_]; [done|]. by rewrite IH.
Qed.

(** X11: a line of the stack that is blank or reads "Error" once trimmed
    does not change what is logged, wherever it stands: between two lines,
    at the head, at the end or alone.  In particular the trace of a
    browser that starts the stack with the line "Error" is logged like the
    trace of one that does not. *)
Theorem blank_and_Error_lines_are_ignored (pre l s : list N) :
  (10%N ∉ l) → keepLine l = false →
  stackTrace (pre ++ 10%N :: l ++ 10%N :: s) = stackTrace (pre ++ 10%N :: s)
  ∧ stackTrace (l ++ 10%N :: s) = stackTrace s
  ∧ stackTrace (pre ++ 10%N :: l) = stackTrace pre
  ∧ stackTrace l = []
  ∧ stackTrace (codeUnits "Error" ++ 10%N :: s) = stackTrace s
  ∧ stackTrace (pre ++ 10%N :: codeUnits "Error" ++ 10%N :: s)
    = stackTrace (pre ++ 10%N :: s).
Proof.
  intros Hl Hk.
  assert (∀ l', (10%N ∉ l') → keepLine l' = false →
            filter (λ line, keepLine line = true) (splitLines l') = []) as Hdrop.
  { intros l' Hl' Hk'. rewrite splitLines_one by done.
    rewrite filter_cons. destruct (decide (keepLine l' = true)); [congruence|done]. }
  assert (∀ l', (10%N ∉ l') → keepLine l' = false →
            stackTrace (pre ++ 10%N :: l' ++ 10%N :: s)
            = stackTrace (pre ++ 10%N :: s)
            ∧ stackTrace (l' ++ 10%N :: s) = stackTrace s) as H.
  { intros l' Hl' Hk'. unfold stackTrace.
    rewrite !splitLines_app, !filter_app, (Hdrop l') by done. done. }
  assert (10%N ∉ codeUnits "Error") as He.
  { vm_compute. intros Hin.
    repeat (apply elem_of_cons in Hin as [Hin|Hin]; [done|]).
    by apply not_elem_of_nil in Hin. }
  destruct (H l Hl Hk) as [H1 H2].
  destruct (H (codeUnits "Error") He eq_refl) as [H3 H4].
  split; [done|]. split; [done|]. split; [|split; [|done]].
  - unfold stackTrace. rewrite splitLines_app, filter_app, (Hdrop l) by done.
    by rewrite app_nil_r.
  - unfold stackTrace. by rewrite (Hdrop l).
Qed.

Lemma blank_and_Error_lines_are_ignored_witness :
  (10%N ∉ codeUnits "   ")
  ∧ keepLine (codeUnits "   ") = false
  ∧ stackTrace ((codeUnits "Error" ++ 10%N :: codeUnits " at a")
                ++ 10%N :: codeUnits "   "
                ++ 10%N :: (codeUnits " at b" ++ 10%N :: codeUnits " at c"
                            ++ 10%N :: codeUnits " at d"))
    = [codeUnits " at c"; codeUnits " at d"].
Proof.
  assert (10%N ∉ codeUnits "   ") as Hl.
  { vm_compute. intros Hin.
    repeat (apply elem_of_cons in Hin as [Hin|Hin]; [done|]).
    by apply not_elem_of_nil in Hin. }
  split; [exact Hl|]. split; [reflexivity|].
  etrans.
  - apply (blank_and_Error_lines_are_ignored
             (codeUnits "Error" ++ 10%N :: codeUnits " at a") (codeUnits "   ")
             (codeUnits " at b" ++ 10%N :: codeUnits " at c"
              ++ 10%N :: codeUnits " at d") Hl eq_refl).
  - reflexivity.
Defined.

(** X12: a call of the logger makes two calls of the console method of its
    level: the first with the arguments as given, the second with lines of
    the stack.  These are lines of the stack in their order, without the
    first two that are kept; none of them is blank or reads "Error" once
    trimmed, and none contains a line feed. *)
Theorem logger_prints_cleaned_stack (level : LogLevel) (input : list Value)
    (stack : list N) (console : list (LogLevel * ConsoleCall)) :
  ∃ out,
    genericLogger level input stack console
    = console ++ [(level, Spread input); (level, Lines out)]
    ∧ out `sublist_of` splitLines stack
    ∧ Forall (λ l, trim l ≠ [] ∧ trim l ≠ codeUnits "Error" ∧ 10%N ∉ l) out
    ∧ (length out ≤ length (splitLines stack) - 2)%nat.
Proof.
  exists (stackTrace stack). split; [done|].
  assert (stackTrace stack `sublist_of` splitLines stack) as Hsub.
  { unfold stackTrace. etrans; [apply sublist_drop|apply sublist_filter]. }
  split; [done|]. split.
  - apply Forall_forall. intros l Hl.
    assert (l ∈ filter (λ line, keepLine line = true) (splitLines stack)) as Hf.
    { eapply elem_of_sublist; [exact Hl|apply sublist_drop]. }
    apply list_elem_of_filter in Hf as [Hk Hin].
    destruct (keepLine_true l Hk) as [? ?]. split; [done|]. split; [done|].
    pose proof (splitLines_no_line_feed stack) as Hno.
    rewrite Forall_forall in Hno. by apply Hno.
  - unfold stackTrace. rewrite length_drop.
    pose proof (length_filter (λ line, keepLine line = true) (splitLines stack)).
    lia.
Qed.


(** ** The cached redux state *)

Section StartupState.

Variable encodeJSON : JS → string.
Variable decodeJSON : string → option JS.

(** X13: what the cache middleware writes is what the next start preloads.
    When writing is switched on, the state after the action is stored; when
    it encodes to a non-empty string that decodes to itself and is an object
    other than null, a start with reading switched on preloads exactly that
    state.  The middleware hands on the result of the rest of the chain, and
    leaves the storage alone when writing is not switched on. *)
Theorem cached_state_is_restored {R Action : Type}
    (next : Action → JS → R * JS) (action : Action) (store state : JS)
    (result : R) (storage : gmap string string) (flag : option string) :
  next action store = (result, state) →
  decodeJSON (encodeJSON state) = Some state →
  typeof state = "object" →
  isNull state = false →
  encodeJSON state ≠ "" →
  savedReduxState decodeJSON (Some "true")
    (reduxCache encodeJSON (Some "true") next action store storage).2
  = Started state
  ∧ (reduxCache encodeJSON flag next action store storage).1 = (result, state)
  ∧ (flag ≠ Some "true" →
     (reduxCache encodeJSON flag next action store storage).2 = storage).
Proof.
  intros Hn Hd Ht Hnull He. unfold reduxCache. rewrite Hn.
  split; [|split].
  - rewrite bool_decide_eq_true_2 by done. simpl.
    unfold savedReduxState. rewrite bool_decide_eq_true_2 by done.
    rewrite lookup_insert_eq, bool_decide_eq_false_2 by done.
    rewrite Hd, Ht, Hnull. done.
  - by case_bool_decide.
  - intros Hf. by rewrite bool_decide_eq_false_2.
Qed.

(** X14: the state a start preloads is always an object other than null.
    With reading not switched on, with nothing stored or with the empty
    string stored it is the empty object; a stored string that decodes to
    anything that is not an object, or to null, makes the start throw with
    the stored string in the message. *)
Theorem preloaded_state_is_an_object (flag : option string)
    (storage : gmap string string) :
  (∀ st, savedReduxState decodeJSON flag storage = Started st →
         typeof st = "object" ∧ isNull st = false)
  ∧ (flag ≠ Some "true" ∨ storage !! "state" = None ∨ storage !! "state" = Some "" →
     savedReduxState decodeJSON flag storage = Started (JObj []))
  ∧ (∀ msg, savedReduxState decodeJSON flag storage = Thrown msg →
            ∃ state v, storage !! "state" = Some state
                       ∧ decodeJSON state = Some v
                       ∧ (typeof v ≠ "object" ∨ v = JNull)
                       ∧ msg = "Unexpected JSON persisted for state: " +:+ state)
  ∧ (∀ state v, flag = Some "true" → storage !! "state" = Some state →
                state ≠ "" → decodeJSON state = Some v →
                typeof v ≠ "object" ∨ v = JNull →
                savedReduxState decodeJSON flag storage
                = Thrown ("Unexpected JSON persisted for state: " +:+ state)).
Proof.
  unfold savedReduxState. split; [|split; [|split]].
  - intros st. case_bool_decide; [|by intros [= <-]].
    destruct (storage !! "state") as [state|]; [|by intros [= <-]].
    case_bool_decide; [by intros [= <-]|].
    destruct (decodeJSON state) as [v|]; [|done].
    destruct (bool_decide (typeof v = "object")) eqn:Ht; simpl; [|done].
    destruct (isNull v) eqn:Hn; simpl; [done|]. intros [= <-].
    by apply bool_decide_eq_true in Ht.
  - intros [Hf|[Hs|Hs]].
    + by rewrite bool_decide_eq_false_2.
    + rewrite Hs. by case_bool_decide.
    + rewrite Hs. by case_bool_decide.
  - intros msg. case_bool_decide; [|done].
    destruct (storage !! "state") as [state|]; [|done].
    case_bool_decide; [done|].
    destruct (decodeJSON state) as [v|] eqn:Hd; [|done].
    destruct (bool_decide (typeof v = "object")) eqn:Ht; simpl.
    + destruct (isNull v) eqn:Hn; simpl; [|done]. intros [= <-].
      exists state, v. repeat split; try done. right. by destruct v.
    + intros [= <-]. exists state, v. repeat split; try done.
      left. by apply bool_decide_eq_false in Ht.
  - intros state v -> -> Hne -> Hv.
    rewrite bool_decide_eq_true_2, bool_decide_eq_false_2 by done.
    destruct Hv as [Hv| ->]; [|done].
    by rewrite bool_decide_eq_false_2.
Qed.

End StartupState.

Lemma cached_state_is_restored_witness :
  savedReduxState exampleDecode (Some "true")
    (reduxCache exampleEncode (Some "true")
       (λ (account : string) (_ : JS), (tt, JObj [("account", JStr account)]))
       "0xaa" (JObj []) {["state" := "{}"]}).2
  = Started (JObj [("account", JStr "0xaa")])
  ∧ savedReduxState exampleDecode (Some "true") {["state" := "{}"]}
    = Started (JObj []).
Proof.
  split; [|reflexivity].
  apply (cached_state_is_restored exampleEncode exampleDecode
           (λ (account : string) (_ : JS), (tt, JObj [("account", JStr account)]))
           "0xaa" (JObj []) (JObj [("account", JStr "0xaa")]) tt
           {["state" := "{}"]} None);
    try reflexivity.
  discriminate.
Defined.

Lemma preloaded_state_is_an_object_witness :
  savedReduxState (λ s, if bool_decide (s = "7") then Some (JNum 7) else None)
    (Some "true") {["state" := "7"]}
  = Thrown "Unexpected JSON persisted for state: 7".
Proof.
  pose proof (preloaded_state_is_an_object
                (λ s, if bool_decide (s = "7") then Some (JNum 7) else None)
                (Some "true") {["state" := "7"]}) as (_ & _ & _ & H).
  apply (H "7" (JNum 7)); try reflexivity.
  - discriminate.
  - left. discriminate.
Defined.

(** ** The account offered for the connection *)

Section OfferedAccount.

Context {AccountTotal : Type}.
Variable address : AccountTotal → string.

(** X15: the account shown by the connect page is the first read-only
    account whose address is the current account.  The imported accounts
    play no part: when the current account is not among the read-only ones,
    or there are none, the page renders empty, also when the account is among
    the imported ones. *)
Theorem imported_accounts_are_not_offered
    (readOnly imported : option (list AccountTotal))
    (currentAccount : option string) :
  (∀ a, currentAccountTotal address readOnly imported currentAccount = Some a →
        ∃ l1 l2, readOnly = Some (l1 ++ a :: l2)
                 ∧ currentAccount = Some (address a)
                 ∧ ∀ b, b ∈ l1 → address b ≠ address a)
  ∧ ((∀ l a, readOnly = Some l → a ∈ l → currentAccount ≠ Some (address a)) →
     currentAccountTotal address readOnly imported currentAccount = None)
  ∧ currentAccountTotal address readOnly imported currentAccount
    = currentAccountTotal address readOnly None currentAccount.
Proof.
  unfold currentAccountTotal. split; [|split; [|done]].
  - intros a. destruct readOnly as [l|]; [|done].
    induction l as [|b l IH]; [done|].
    rewrite filter_cons. destruct (decide (currentAccount = Some (address b))) as [Hb|Hb].
    + simpl. intros [= ->]. exists [], l. split; [done|]. split; [done|].
      intros b Hin. by apply not_elem_of_nil in Hin.
    + intros H. destruct (IH H) as (l1 & l2 & [= ->] & Hc & Hl1).
      exists (b :: l1), l2. split; [done|]. split; [done|].
      intros b' Hin. apply elem_of_cons in Hin as [->|Hin]; [|by apply Hl1].
      congruence.
  - intros Hno. destruct readOnly as [l|]; [|done].
    apply head_None.
    assert (∀ a, a ∈ l → currentAccount ≠ Some (address a)) as Hl by eauto.
    clear Hno. induction l as [|b l IH]; [done|].
    rewrite filter_cons.
    destruct (decide (currentAccount = Some (address b))) as [Hb|Hb].
    + exfalso. eapply Hl; [apply list_elem_of_here|done].
    + apply IH. intros a Hin. apply Hl. by apply list_elem_of_further.
Qed.

End OfferedAccount.

Lemma imported_accounts_are_not_offered_witness :
  currentAccountTotal (λ a : string, a) (Some ["0xaa"; "0xbb"]) (Some ["0xcc"])
    (Some "0xcc")
  = None.
Proof.
  pose proof (imported_accounts_are_not_offered (λ a : string, a)
                (Some ["0xaa"; "0xbb"]) (Some ["0xcc"]) (Some "0xcc"))
    as (_ & H & _).
  apply H. intros l a [= <-] Hin.
  apply elem_of_cons in Hin as [->|Hin]; [discriminate|].
  apply elem_of_cons in Hin as [->|Hin]; [discriminate|].
  by apply not_elem_of_nil in Hin.
Defined.


(** ** Approval rounds *)

Section ApprovalRounds.

Context {DB : Type}.
Variable engine : string → Value → option Value.

Implicit Types (s : Service DB) (port : Port) (event : PortRequestEvent).

(** X16: a denial is not remembered.  After a deny decision for an origin
    with a Pending Approval, the next [eth_requestAccounts] message from that
    origin starts a new approval round: a permission request is emitted, a
    [/permission] window is asked for, and nothing is posted yet. *)
Theorem request_after_denial_prompts_again s (p : PermissionRequest) (t : nat)
    port event :
  pendingPermissionsRequests s !! url p = Some t →
  sender_url port = url p →
  method (request event) = "eth_requestAccounts" →
  emitted (onMessage engine port event (permissionDenyOrRevoke engine p s))
  = emitted (permissionDenyOrRevoke engine p s)
    ++ [mkPermissionRequest (sender_url port)
          (default "" (sender_tab_favIconUrl port)) "request"]
  ∧ windows (onMessage engine port event (permissionDenyOrRevoke engine p s))
    = windows (permissionDenyOrRevoke engine p s) ++ ["/permission"]
  ∧ posted (onMessage engine port event (permissionDenyOrRevoke engine p s))
    = posted (permissionDenyOrRevoke engine p s)
  ∧ engineCalls (onMessage engine port event (permissionDenyOrRevoke engine p s))
    = engineCalls (permissionDenyOrRevoke engine p s).
Proof.
  intros Hp Hu Hm.
  assert (permissionCheck (permissionDenyOrRevoke engine p s) (sender_url port)
          = false) as Hc.
  { unfold permissionDenyOrRevoke. rewrite Hp. unfold permissionCheck.
    match goal with |- context [resolve engine t ?s1] =>
      destruct (resolve_fields engine t s1) as (_&->&_) end.
    simpl. by rewrite Hu, lookup_delete_eq. }
  by rewrite onMessage_gate.
Qed.

(** *** What listeners wait for *)

Lemma respond_fits port event s :
  pc_fits_method (mkTask port event (respond engine port event s).1).
Proof.
  unfold respond, forward, routeContentScriptRPCRequest, pc_fits_method.
  destruct (permissionCheck s _); [|done].
  case_bool_decide; [done|]. by destruct (engine _ _).
Qed.

Lemma forward_fits port event s :
  pc_fits_method (mkTask port event (forward engine port event s).1).
Proof.
  unfold forward, routeContentScriptRPCRequest, pc_fits_method.
  by destruct (engine _ _).
Qed.

Lemma fits_set_pc (t : nat) (c : Pc) s :
  Forall pc_fits_method (tasks s) →
  (∀ task, tasks s !! t = Some task →
           pc_fits_method (mkTask (task_port task) (task_event task) c)) →
  Forall pc_fits_method (tasks (set_pc t c s)).
Proof.
  intros Hall Hc. unfold set_pc.
  destruct (tasks s !! t) as [task|] eqn:Ht; [|done]. simpl.
  apply Forall_insert; [done|]. by apply Hc.
Qed.

Lemma fits_resolve (t : nat) s :
  Forall pc_fits_method (tasks s) →
  Forall pc_fits_method (tasks (resolve engine t s)).
Proof.
  intros Hall. unfold resolve.
  destruct (tasks s !! t) as [task|] eqn:Ht; [|done].
  destruct (pc task); try done.
  pose proof (respond_fits (task_port task) (task_event task) s) as Hf.
  destruct (respond_fields engine (task_port task) (task_event task) s)
    as (_&_&_&Htk&_).
  destruct (respond engine (task_port task) (task_event task) s) as [c s'].
  simpl in *. apply fits_set_pc; rewrite Htk; [done|].
  intros task' Ht'. congruence.
Qed.

Lemma fits_step e s :
  Forall pc_fits_method (tasks s) →
  Forall pc_fits_method (tasks (step engine e s)).
Proof.
  intros Hall. destruct e as [port event|t|t|p|p]; simpl.
  - unfold onMessage.
    destruct (bool_decide (method (request event) = "eth_requestAccounts")) eqn:Hm;
      simpl.
    + destruct (permissionCheck s (sender_url port)); simpl.
      * pose proof (respond_fits port event s) as Hf.
        destruct (respond_fields engine port event s) as (_&_&_&Htk&_).
        destruct (respond engine port event s) as [c s']. simpl in *.
        rewrite Htk. apply Forall_app. split; [done|]. by apply Forall_singleton.
      * apply Forall_app. split; [done|]. apply Forall_singleton.
        unfold pc_fits_method. simpl. by apply bool_decide_eq_true in Hm.
    + pose proof (respond_fits port event s) as Hf.
      destruct (respond_fields engine port event s) as (_&_&_&Htk&_).
      destruct (respond engine port event s) as [c s']. simpl in *.
      rewrite Htk. apply Forall_app. split; [done|]. by apply Forall_singleton.
  - unfold windowCreated. destruct (tasks s !! t) as [task|] eqn:Ht; [|done].
    destruct (pc task) eqn:Hpc; try done.
    + apply fits_set_pc; [done|]. simpl. intros task' Ht'.
      rewrite Ht in Ht'. injection Ht' as <-.
      pose proof (Forall_lookup_1 _ _ _ _ Hall Ht) as Hf.
      unfold pc_fits_method in *. by rewrite Hpc in Hf.
    + pose proof (forward_fits (task_port task) (task_event task) s) as Hf.
      destruct (forward_fields engine (task_port task) (task_event task) s)
        as (_&_&_&Htk&_).
      destruct (forward engine (task_port task) (task_event task) s) as [c s'].
      simpl in *. apply fits_set_pc; rewrite Htk; [done|].
      intros task' Ht'. congruence.
  - unfold windowFailed. destruct (tasks s !! t) as [task|] eqn:Ht; [|done].
    destruct (pc task); try done; by apply fits_set_pc.
  - unfold permissionGrant.
    destruct (pendingPermissionsRequests s !! url p) as [t|]; [|by stale p s].
    by apply fits_resolve.
  - unfold permissionDenyOrRevoke.
    destruct (pendingPermissionsRequests s !! url p) as [t|]; [|by stale p s].
    by apply fits_resolve.
Qed.

Lemma fits_run tr s :
  Forall pc_fits_method (tasks s) →
  Forall pc_fits_method (tasks (run engine tr s)).
Proof.
  revert s. induction tr as [|e tr IH]; intros s Hall; [done|].
  cbn [run]. apply IH. by apply fits_step.
Qed.

(** X17: in every run of a fresh service a stored resolver belongs to a
    listener of an [eth_requestAccounts] request that is blocked on the human
    decision and whose port has the url of the entry; and only listeners of
    [eth_sendTransaction] requests ever wait for the [/signTransaction]
    window, only listeners of [eth_requestAccounts] requests for the approval
    window or the decision. *)
Theorem listeners_wait_for_what_fits (tr : list Event) (d : DB) :
  (∀ (u : string) (t : nat),
     pendingPermissionsRequests (run engine tr (create d)) !! u = Some t →
     ∃ task, tasks (run engine tr (create d)) !! t = Some task
             ∧ pc task = AwaitUserAction
             ∧ sender_url (task_port task) = u
             ∧ method (request (task_event task)) = "eth_requestAccounts")
  ∧ Forall pc_fits_method (tasks (run engine tr (create d))).
Proof.
  assert (Forall pc_fits_method (tasks (run engine tr (create d)))) as Hfit.
  { apply fits_run. constructor. }
  split; [|done]. intros u t Hp.
  destruct (pending_wf_run engine tr (create d) (pending_wf_create d) _ _ Hp)
    as (task & Ht & Hpc & Hu).
  exists task. split; [done|]. split; [done|]. split; [done|].
  pose proof (Forall_lookup_1 _ _ _ _ Hfit Ht) as Hf.
  unfold pc_fits_method in Hf. by rewrite Hpc in Hf.
Qed.

End ApprovalRounds.

Lemma request_after_denial_prompts_again_witness :
  pendingPermissionsRequests waitingService !! url denyDapp = Some 0
  ∧ windows (onMessage exampleProvider dappPort' (call "b" "eth_requestAccounts")
               (permissionDenyOrRevoke exampleProvider denyDapp waitingService))
    = windows (permissionDenyOrRevoke exampleProvider denyDapp waitingService)
      ++ ["/permission"].
Proof.
  split; [reflexivity|].
  pose proof (request_after_denial_prompts_again exampleProvider waitingService
                denyDapp 0 dappPort' (call "b" "eth_requestAccounts")
                eq_refl eq_refl eq_refl) as (_ & H & _).
  exact H.
Defined.

Lemma listeners_wait_for_what_fits_witness :
  pendingPermissionsRequests
    (run exampleProvider
       [Message dappPort (call "a" "eth_requestAccounts"); WindowCreated 0]
       (create tt)) !! dapp = Some 0
  ∧ ∃ task,
      tasks (run exampleProvider
               [Message dappPort (call "a" "eth_requestAccounts"); WindowCreated 0]
               (create tt)) !! 0 = Some task
      ∧ pc task = AwaitUserAction
      ∧ sender_url (task_port task) = dapp
      ∧ method (request (task_event task)) = "eth_requestAccounts".
Proof.
  split; [reflexivity|].
  apply (listeners_wait_for_what_fits exampleProvider
           [Message dappPort (call "a" "eth_requestAccounts"); WindowCreated 0] tt).
  reflexivity.
Defined.


(** ** When a request is forwarded *)

Section Forwarding.

Context {DB : Type}.
Variable engine : string → Value → option Value.

Implicit Types (s : Service DB) (port : Port) (event : PortRequestEvent).











End Forwarding.

Section ForwardingClaims.

Context {DB : Type}.
Variable engine : string → Value → option Value.

Implicit Types (s : Service DB) (port : Port) (event : PortRequestEvent).

Lemma decision_of_waiting_request s2 (t : nat) port event (p : PermissionRequest) :
  method (request event) = "eth_requestAccounts" →
  url p = sender_url port →
  tasks s2 !! t = Some (mkTask port event AwaitUserAction) →
  pendingPermissionsRequests s2 !! url p = Some t →
  (engineCalls (permissionDenyOrRevoke engine p s2) = engineCalls s2
   ∧ posted (permissionDenyOrRevoke engine p s2)
     = posted s2 ++ [(port, mkPortResponseEvent (id event) (Result (VArr [])))])
  ∧ (state p = "allow" →
     engineCalls (permissionGrant engine p s2)
     = engineCalls s2 ++ [("eth_accounts", params (request event))]
     ∧ ∀ v, engine "eth_accounts" (params (request event)) = Some v →
            posted (permissionGrant engine p s2)
            = posted s2 ++ [(port, mkPortResponseEvent (id event) (Result v))])
  ∧ (state p ≠ "allow" →
     engineCalls (permissionGrant engine p s2) = engineCalls s2
     ∧ posted (permissionGrant engine p s2)
       = posted s2 ++ [(port, mkPortResponseEvent (id event) (Result (VArr [])))]).
Proof.
  intros Hm Hurl Ht Hp. split; [|split].
  - unfold permissionDenyOrRevoke. rewrite Hp.
    rewrite (resolve_denied engine t _ (mkTask port event AwaitUserAction));
      [| exact Ht | done |].
    + match goal with |- context [set_pc t ?c ?s1] =>
        by destruct (set_pc_fields t c s1) as (_&_&_&_&_&->&->) end.
    + unfold permissionCheck. simpl. by rewrite <- Hurl, lookup_delete_eq.
  - intros Hst. unfold permissionGrant. rewrite Hp.
    rewrite (resolve_allowed engine t _ (mkTask port event AwaitUserAction));
      [| exact Ht | done | |].
    + match goal with |- context [set_pc t ?c ?s1] =>
        destruct (set_pc_fields t c s1) as (_&_&_&_&_&->&->) end.
      unfold forward, routeContentScriptRPCRequest, internalMethod. simpl.
      rewrite Hm. simpl. split.
      * by destruct (engine _ _).
      * by intros v ->.
    + unfold permissionCheck. simpl. rewrite <- Hurl, lookup_insert_eq.
      by apply bool_decide_eq_true.
    + simpl. by rewrite Hm.
  - intros Hst. unfold permissionGrant. rewrite Hp.
    rewrite (resolve_denied engine t _ (mkTask port event AwaitUserAction));
      [| exact Ht | done |].
    + match goal with |- context [set_pc t ?c ?s1] =>
        by destruct (set_pc_fields t c s1) as (_&_&_&_&_&->&->) end.
    + unfold permissionCheck. simpl. rewrite <- Hurl, lookup_insert_eq.
      by apply bool_decide_eq_false.
Qed.

Lemma approval_window_steps s port event :
  method (request event) = "eth_requestAccounts" →
  permissionCheck s (sender_url port) = false →
  engineCalls (windowCreated engine (length (tasks s))
                 (onMessage engine port event s)) = engineCalls s
  ∧ posted (windowCreated engine (length (tasks s))
              (onMessage engine port event s)) = posted s
  ∧ tasks (windowCreated engine (length (tasks s))
             (onMessage engine port event s)) !! length (tasks s)
    = Some (mkTask port event AwaitUserAction)
  ∧ pendingPermissionsRequests
      (windowCreated engine (length (tasks s)) (onMessage engine port event s))
    !! sender_url port = Some (length (tasks s))
  ∧ engineCalls (windowFailed (length (tasks s))
                   (onMessage engine port event s)) = engineCalls s
  ∧ posted (windowFailed (length (tasks s))
              (onMessage engine port event s)) = posted s
  ∧ pendingPermissionsRequests
      (windowFailed (length (tasks s)) (onMessage engine port event s))
    = pendingPermissionsRequests s.
Proof.
  intros Hm Hc. rewrite onMessage_gate by done.
  set (s1 := set_tasks _ _).
  assert (tasks s1 !! length (tasks s)
          = Some (mkTask port event AwaitPermissionWindow)) as Ht.
  { unfold s1. simpl. rewrite lookup_app_r by done.
    by rewrite Nat.sub_diag. }
  unfold windowCreated, windowFailed. rewrite Ht. simpl.
  match goal with |- context [set_pc ?t AwaitUserAction ?s2] =>
    destruct (set_pc_fields t AwaitUserAction s2) as (_&_&Hp&_&_&He&Hpo);
    pose proof (set_pc_lookup_eq t AwaitUserAction s2 _ Ht) as Htk end.
  destruct (set_pc_fields (length (tasks s)) Rejected s1) as (_&_&Hp'&_&_&He'&Hpo').
  rewrite He, Hpo, Hp, He', Hpo', Hp', Htk. simpl.
  by rewrite lookup_insert_eq.
Qed.

(** C3 (amended): the Approval Gate guards [eth_requestAccounts].  When
    that method arrives from an origin that is not allowed, the approval UI
    is invoked first and the internal provider is not called, neither on
    arrival nor when the approval window has been created or has failed.
    The request is forwarded (as [eth_accounts]) only when the decision
    leaves the origin with a record in state "allow"; after a denial the
    caller gets a success envelope with its identifier and the empty array,
    not an error, and the internal provider is not called.  In every state
    a fresh service can reach, no window event forwards a request for
    [eth_requestAccounts], no deny decision forwards anything, and a grant
    forwards only if its record is in state "allow". *)
Theorem requestAccounts_is_gated s port event (p : PermissionRequest)
    (tr : list Event) (d : DB) :
  method (request event) = "eth_requestAccounts" →
  url p = sender_url port →
  (permissionCheck s (sender_url port) = false →
   (emitted (onMessage engine port event s)
    = emitted s ++ [mkPermissionRequest (sender_url port)
                      (default "" (sender_tab_favIconUrl port)) "request"]
    ∧ windows (onMessage engine port event s) = windows s ++ ["/permission"]
    ∧ engineCalls (onMessage engine port event s) = engineCalls s
    ∧ posted (onMessage engine port event s) = posted s
    ∧ tasks (onMessage engine port event s)
      = tasks s ++ [mkTask port event AwaitPermissionWindow])
   ∧ (engineCalls (windowCreated engine (length (tasks s))
                     (onMessage engine port event s)) = engineCalls s
      ∧ posted (windowCreated engine (length (tasks s))
                  (onMessage engine port event s)) = posted s
      ∧ tasks (windowCreated engine (length (tasks s))
                 (onMessage engine port event s)) !! length (tasks s)
        = Some (mkTask port event AwaitUserAction)
      ∧ pendingPermissionsRequests
          (windowCreated engine (length (tasks s)) (onMessage engine port event s))
        !! sender_url port = Some (length (tasks s))
      ∧ engineCalls (windowFailed (length (tasks s))
                       (onMessage engine port event s)) = engineCalls s
      ∧ posted (windowFailed (length (tasks s))
                  (onMessage engine port event s)) = posted s
      ∧ pendingPermissionsRequests
          (windowFailed (length (tasks s)) (onMessage engine port event s))
        = pendingPermissionsRequests s)
   ∧ (engineCalls (permissionDenyOrRevoke engine p
                     (windowCreated engine (length (tasks s))
                        (onMessage engine port event s))) = engineCalls s
      ∧ posted (permissionDenyOrRevoke engine p
                  (windowCreated engine (length (tasks s))
                     (onMessage engine port event s)))
        = posted s ++ [(port, mkPortResponseEvent (id event) (Result (VArr [])))])
   ∧ (state p = "allow" →
      engineCalls (permissionGrant engine p
                     (windowCreated engine (length (tasks s))
                        (onMessage engine port event s)))
      = engineCalls s ++ [("eth_accounts", params (request event))]
      ∧ ∀ v, engine "eth_accounts" (params (request event)) = Some v →
             posted (permissionGrant engine p
                       (windowCreated engine (length (tasks s))
                          (onMessage engine port event s)))
             = posted s ++ [(port, mkPortResponseEvent (id event) (Result v))])
   ∧ (state p ≠ "allow" →
      engineCalls (permissionGrant engine p
                     (windowCreated engine (length (tasks s))
                        (onMessage engine port event s))) = engineCalls s
      ∧ posted (permissionGrant engine p
                  (windowCreated engine (length (tasks s))
                     (onMessage engine port event s)))
        = posted s ++ [(port, mkPortResponseEvent (id event) (Result (VArr [])))]))
  ∧ (∀ s2 (t : nat),
       tasks s2 !! t = Some (mkTask port event AwaitUserAction) →
       pendingPermissionsRequests s2 !! url p = Some t →
       (engineCalls (permissionDenyOrRevoke engine p s2) = engineCalls s2
        ∧ posted (permissionDenyOrRevoke engine p s2)
          = posted s2 ++ [(port, mkPortResponseEvent (id event) (Result (VArr [])))])
       ∧ (state p = "allow" →
          engineCalls (permissionGrant engine p s2)
          = engineCalls s2 ++ [("eth_accounts", params (request event))]
          ∧ ∀ v, engine "eth_accounts" (params (request event)) = Some v →
                 posted (permissionGrant engine p s2)
                 = posted s2 ++ [(port, mkPortResponseEvent (id event) (Result v))])
       ∧ (state p ≠ "allow" →
          engineCalls (permissionGrant engine p s2) = engineCalls s2
          ∧ posted (permissionGrant engine p s2)
            = posted s2
              ++ [(port, mkPortResponseEvent (id event) (Result (VArr [])))]))
  ∧ (∀ (t : nat) task,
       tasks (run engine tr (create d)) !! t = Some task →
       method (request (task_event task)) = "eth_requestAccounts" →
       engineCalls (windowCreated engine t (run engine tr (create d)))
       = engineCalls (run engine tr (create d))
       ∧ engineCalls (windowFailed t (run engine tr (create d)))
         = engineCalls (run engine tr (create d)))
  ∧ (∀ q : PermissionRequest,
       engineCalls (permissionDenyOrRevoke engine q (run engine tr (create d)))
       = engineCalls (run engine tr (create d))
       ∧ (state q ≠ "allow" →
          engineCalls (permissionGrant engine q (run engine tr (create d)))
          = engineCalls (run engine tr (create d)))).
Proof.
  intros Hm Hurl. split; [|split; [|split]].
  - intros Hc.
    destruct (approval_window_steps s port event Hm Hc)
      as (He & Hpo & Ht & Hp & He' & Hpo' & Hp').
    split; [by rewrite onMessage_gate|].
    split; [done|].
    rewrite <- Hurl in Hp.
    destruct (decision_of_waiting_request _ _ port event p Hm Hurl Ht Hp)
      as ((Hd1 & Hd2) & Hg & Hn).
    rewrite He, Hpo in *. done.
  - intros s2 t Ht Hp.
    exact (decision_of_waiting_request s2 t port event p Hm Hurl Ht Hp).
  - intros t task Ht Hmt.
    pose proof (fits_run engine tr (create d) (Forall_nil_2 _)) as Hfit.
    pose proof (Forall_lookup_1 _ _ _ _ Hfit Ht) as Hf.
    unfold pc_fits_method in Hf. unfold windowCreated, windowFailed. rewrite Ht.
    destruct (pc task) eqn:Hpc; try done.
    + split.
      * match goal with |- context [set_pc t AwaitUserAction ?s1] =>
          by destruct (set_pc_fields t AwaitUserAction s1) as (_&_&_&_&_&->&_) end.
      * match goal with |- context [set_pc t Rejected ?s1] =>
          by destruct (set_pc_fields t Rejected s1) as (_&_&_&_&_&->&_) end.
    + rewrite Hmt in Hf. discriminate Hf.
  - intros q.
    pose proof (pending_wf_run engine tr (create d) (pending_wf_create d)) as Hwf.
    set (sr := run engine tr (create d)) in *.
    unfold permissionDenyOrRevoke, permissionGrant.
    destruct (pendingPermissionsRequests sr !! url q) as [t|] eqn:Hq;
      [|split; [|intros _]; by stale q sr].
    destruct (Hwf _ _ Hq) as (task & Ht & Hpc & Hu).
    split; [|intros Hst].
    + rewrite (resolve_denied engine t _ task); [| exact Ht | done |].
      * match goal with |- context [set_pc t ?c ?s1] =>
          by destruct (set_pc_fields t c s1) as (_&_&_&_&_&->&_) end.
      * unfold permissionCheck. simpl. by rewrite Hu, lookup_delete_eq.
    + rewrite (resolve_denied engine t _ task); [| exact Ht | done |].
      * match goal with |- context [set_pc t ?c ?s1] =>
          by destruct (set_pc_fields t c s1) as (_&_&_&_&_&->&_) end.
      * unfold permissionCheck. simpl. rewrite Hu, lookup_insert_eq.
        by apply bool_decide_eq_false.
Qed.


End ForwardingClaims.

(** ** Scenarios of the gate *)

Lemma requestAccounts_is_gated_witness :
  method (request (call "a" "eth_requestAccounts")) = "eth_requestAccounts"
  ∧ url allowDapp = sender_url dappPort
  ∧ permissionCheck (create tt) (sender_url dappPort) = false
  ∧ windows (onMessage exampleProvider dappPort (call "a" "eth_requestAccounts")
               (create tt))
    = ["/permission"]
  ∧ engineCalls (windowCreated exampleProvider 0
                   (onMessage exampleProvider dappPort
                      (call "a" "eth_requestAccounts") (create tt)))
    = []
  ∧ posted (permissionDenyOrRevoke exampleProvider allowDapp
              (windowCreated exampleProvider 0
                 (onMessage exampleProvider dappPort
                    (call "a" "eth_requestAccounts") (create tt))))
    = [(dappPort, mkPortResponseEvent "a" (Result (VArr [])))]
  ∧ engineCalls (permissionGrant exampleProvider allowDapp
                   (windowCreated exampleProvider 0
                      (onMessage exampleProvider dappPort
                         (call "a" "eth_requestAccounts") (create tt))))
    = [("eth_accounts", VArr [])]
  ∧ engineCalls (windowCreated exampleProvider 2 twoOrigins)
    = engineCalls twoOrigins.
Proof.
  do 3 (split; [reflexivity|]).
  pose proof (requestAccounts_is_gated exampleProvider (create tt) dappPort
                (call "a" "eth_requestAccounts") allowDapp
                [Message otherPort (call "x" "eth_requestAccounts");
                 Message otherPort (call "y" "eth_requestAccounts");
                 WindowCreated 0;
                 PermissionGranted allowOther;
                 WindowCreated 1;
                 Message dappPort (call "a" "eth_requestAccounts");
                 WindowCreated 2] tt eq_refl eq_refl)
    as (H1 & _ & H3 & _).
  destruct (H1 eq_refl) as ((_ & Hw & _) & (Hwc & _) & (_ & Hd) & Hg & _).
  split; [exact Hw|]. split; [exact Hwc|]. split; [exact Hd|].
  split; [exact (proj1 (Hg eq_refl))|].
  exact (proj1 (H3 2 (mkTask dappPort (call "a" "eth_requestAccounts")
                        AwaitUserAction) eq_refl eq_refl)).
Defined.


